(** * Stan model indexing: [rvalue]

    A shallow embedding of [src/stan/model/indexing/rvalue.hpp]: the family
    of [rvalue] overloads that resolve a list of index specifiers against an
    Eigen vector, an Eigen matrix or a (nested) [std::vector].

    Conventions of the embedding.
    - [int] and [Eigen::Index] values are integers of [Z]; every subtraction
      the properties below depend on is applied to operands that a bounds check
      has already accepted, so no wrap-around is involved; extents are
      taken to fit [int], the type [check_range] receives them in.
    - An Eigen dense expression (a matrix, a vector, a block of one, an
      indexed view) is its extent(s) together with its coefficient accessor;
      this is what the overloads read ([size()], [rows()], [cols()],
      [coeff()]) and what [segment], [head], [block], ... build.  Eigen
      does not specify a read outside the extent; the embedding gives it
      the value of the accessor there.  Whether a result aliases its source
      or owns its storage is not part of the embedding.
    - A [std::vector] is a [list].
    - [math::check_range] is the only effect: a computation returns the
      list of bounds checks it performed, in order, together with its
      outcome (a value, or the exception that ended it). *)

From Stdlib Require Import ZArith List Bool Lia.
From Stdlib Require String.
Import ListNotations String.StringSyntax.

Abbreviation string := String.string.

Local Open Scope string_scope.
Local Open Scope list_scope.
Local Open Scope Z_scope.

(** ** Bounds checks and the computation monad *)

(** One call [check_range(function, name, max, index)]. *)
Record check : Type := Check
  { c_function : string; c_name : string; c_max : Z; c_index : Z }.

Definition in_range (c : check) : Prop := 1 <= c_index c <= c_max c.

Definition in_rangeb (c : check) : bool :=
  (1 <=? c_index c) && (c_index c <=? c_max c).

Inductive exn : Type :=
| out_of_range (c : check)
| domain_error (function name : string) (y low : Z).

(** [Unspecified] stands for what C++ gives no meaning to: a call no overload
    accepts, or a subscript outside the storage of a [std::vector]. *)
Inductive outcome (A : Type) : Type :=
| Ok (a : A)
| Throw (e : exn)
| Unspecified.
Arguments Ok {A} a.
Arguments Throw {A} e.
Arguments Unspecified {A}.

Definition M (A : Type) : Type := (list check * outcome A)%type.

Definition checks {A} (m : M A) : list check := fst m.
Definition result {A} (m : M A) : outcome A := snd m.

Definition ret {A} (a : A) : M A := ([], Ok a).

Definition bind {A B} (m : M A) (f : A -> M B) : M B :=
  match result m with
  | Ok a => (checks m ++ checks (f a), result (f a))
  | Throw e => (checks m, Throw e)
  | Unspecified => (checks m, Unspecified)
  end.

Definition throw {A} (e : exn) : M A := ([], Throw e).
Definition unspecified {A} : M A := ([], Unspecified).

Notation "x <- c1 ;; c2" := (bind c1 (fun x => c2))
  (at level 61, c1 at next level, right associativity).
Notation "c1 ;; c2" := (bind c1 (fun _ => c2))
  (at level 61, right associativity).

(** Modelled from the spec: [math::check_range] belongs to the Stan Math
    library ([stan/math/prim/err.hpp]), the external bounds-check primitive
    of section 6.  Section 7: a RangeError is raised when
    [position < 1 || position > extent] and carries the context label, the
    name, the extent and the offending position. *)
Definition check_range (function name : string) (max index : Z) : M unit :=
  let c := Check function name max index in
  ([c], if in_rangeb c then Ok tt else Throw (out_of_range c)).

(** Modelled from the spec: [math::check_greater_or_equal] belongs to the
    Stan Math library too; the spec does not describe it, and its name and
    its one use (on [index_size]) give: a domain error unless [y >= low]. *)
Definition check_greater_or_equal (function name : string) (y low : Z)
  : M unit :=
  if low <=? y then ret tt else throw (domain_error function name y low).

(** [for (auto idx_i : ns) body(idx_i);] *)
Fixpoint for_each {A} (body : A -> M unit) (ns : list A) : M unit :=
  match ns with
  | [] => ret tt
  | idx_i :: ns' => body idx_i ;; for_each body ns'
  end.

(** ** Eigen dense expressions *)

Module Eigen.

Record Vector (T : Type) : Type :=
  { size : Z; coeff : Z -> T }.
Arguments size {T} _.
Arguments coeff {T} _ _.

Record Matrix (T : Type) : Type :=
  { rows : Z; cols : Z; coeff2 : Z -> Z -> T }.
Arguments rows {T} _.
Arguments cols {T} _.
Arguments coeff2 {T} _ _ _.

Section Expressions.
Context {T : Type}.

(** [v.segment(start, n)] *)
Definition segment (v : Vector T) (start n : Z) : Vector T :=
  {| size := n; coeff := fun i => coeff v (start + i) |}.

(** [v.head(n)] and [v.tail(n)] *)
Definition head (v : Vector T) (n : Z) : Vector T := segment v 0 n.
Definition tail (v : Vector T) (n : Z) : Vector T :=
  segment v (size v - n) n.

(** The 0-based entry [i] of an index array. *)
Definition at_ (idx : list Z) (i : Z) : Z := nth (Z.to_nat i) idx 0.

(** [v(idx)], the indexed view of [v] at the 0-based offsets [idx]. *)
Definition indexed (v : Vector T) (idx : list Z) : Vector T :=
  {| size := Z.of_nat (length idx);
     coeff := fun i => coeff v (at_ idx i) |}.

(** [x.block(i, j, p, q)] *)
Definition block (x : Matrix T) (i j p q : Z) : Matrix T :=
  {| rows := p; cols := q;
     coeff2 := fun a b => coeff2 x (i + a) (j + b) |}.

Definition row (x : Matrix T) (i : Z) : Vector T :=
  {| size := cols x; coeff := fun j => coeff2 x i j |}.
Definition col (x : Matrix T) (j : Z) : Vector T :=
  {| size := rows x; coeff := fun i => coeff2 x i j |}.

Definition topRows (x : Matrix T) (n : Z) : Matrix T :=
  block x 0 0 n (cols x).
Definition bottomRows (x : Matrix T) (n : Z) : Matrix T :=
  block x (rows x - n) 0 n (cols x).
Definition middleRows (x : Matrix T) (start n : Z) : Matrix T :=
  block x start 0 n (cols x).
Definition leftCols (x : Matrix T) (n : Z) : Matrix T :=
  block x 0 0 (rows x) n.
Definition rightCols (x : Matrix T) (n : Z) : Matrix T :=
  block x 0 (cols x - n) (rows x) n.
Definition middleCols (x : Matrix T) (start n : Z) : Matrix T :=
  block x 0 start (rows x) n.

(** [x(ridx, Eigen::all)], [x(Eigen::all, cidx)], [x(i, cidx)],
    [x(ridx, j)] and [x(ridx, cidx)]. *)
Definition indexed_rows (x : Matrix T) (ridx : list Z) : Matrix T :=
  {| rows := Z.of_nat (length ridx); cols := cols x;
     coeff2 := fun a b => coeff2 x (at_ ridx a) b |}.
Definition indexed_cols (x : Matrix T) (cidx : list Z) : Matrix T :=
  {| rows := rows x; cols := Z.of_nat (length cidx);
     coeff2 := fun a b => coeff2 x a (at_ cidx b) |}.
Definition indexed_row_at (x : Matrix T) (i : Z) (cidx : list Z)
  : Vector T := indexed (row x i) cidx.
Definition indexed_col_at (x : Matrix T) (ridx : list Z) (j : Z)
  : Vector T := indexed (col x j) ridx.
Definition indexed2 (x : Matrix T) (ridx cidx : list Z) : Matrix T :=
  indexed_cols (indexed_rows x ridx) cidx.

(** The coefficients of a vector, in order. *)
Definition to_list (v : Vector T) : list T :=
  map (fun i => coeff v (Z.of_nat i)) (seq 0 (Z.to_nat (size v))).

Definition of_list (d : T) (l : list T) : Vector T :=
  {| size := Z.of_nat (length l);
     coeff := fun i => nth (Z.to_nat i) l d |}.

(** The rows of a matrix, in order. *)
Definition to_lists (x : Matrix T) : list (list T) :=
  map (fun i => to_list (row x (Z.of_nat i))) (seq 0 (Z.to_nat (rows x))).

Definition of_lists (d : T) (r c : Z) (l : list (list T)) : Matrix T :=
  {| rows := r; cols := c;
     coeff2 := fun i j => nth (Z.to_nat j) (nth (Z.to_nat i) l []) d |}.

End Expressions.

(** [idx - 1] on an [Eigen::Array<int, -1, 1>]. *)
Definition minus_one (idx : list Z) : list Z := map (fun n => n - 1) idx.

End Eigen.

Import Eigen.

(** ** Index specifiers *)

(** Modelled from the spec: the index structs are declared in
    [stan/model/indexing/index.hpp], outside [src/].  Each constructor holds
    the fields the overloads read: [n_], [ns_], [min_], [max_]. *)
Inductive index : Type :=
| index_uni (n_ : Z)
| index_multi (ns_ : list Z)
| index_omni
| index_min (min_ : Z)
| index_max (max_ : Z)
| index_min_max (min_ max_ : Z).

(** ** Vector overloads *)

Section VectorOverloads.
Context {T : Type}.

(** vector[uni] : scalar *)
Definition rvalue_vector_uni (v : Vector T) (name : string) (n_ : Z)
  : M T :=
  check_range "vector[uni] indexing" name (size v) n_ ;;
  ret (coeff v (n_ - 1)).

(** vector[multi] = vector *)
Definition rvalue_vector_multi (v : Vector T) (name : string)
           (ns_ : list Z) : M (Vector T) :=
  let v_size := size v in
  for_each (fun idx_i =>
              check_range "vector[multi] indexing" name v_size idx_i) ns_ ;;
  ret (indexed v (minus_one ns_)).

(** vector[min_max] = vector *)
Definition rvalue_vector_min_max (v : Vector T) (name : string)
           (min_ max_ : Z) : M (Vector T) :=
  check_range "vector[min_max] min indexing" name (size v) min_ ;;
  let slice_start := min_ - 1 in
  if max_ >=? min_ then
    check_range "vector[min_max] max indexing" name (size v) max_ ;;
    let slice_size := max_ - slice_start in
    ret (segment v slice_start slice_size)
  else
    ret (segment v slice_start 0).

(** vector[min:N] = vector *)
Definition rvalue_vector_min (x : Vector T) (name : string) (min_ : Z)
  : M (Vector T) :=
  check_range "vector[min] indexing" name (size x) min_ ;;
  ret (tail x (size x - min_ + 1)).

(** vector[1:max] <- vector *)
Definition rvalue_vector_max (x : Vector T) (name : string) (max_ : Z)
  : M (Vector T) :=
  if max_ >? 0 then
    check_range "vector[max] indexing" name (size x) max_ ;;
    ret (head x max_)
  else
    ret (head x 0).

End VectorOverloads.

(** ** Matrix overloads with one index (a row selector) *)

Section MatrixRowOverloads.
Context {T : Type}.

(** matrix[uni] : row vector *)
Definition rvalue_matrix_uni (x : Matrix T) (name : string) (n_ : Z)
  : M (Vector T) :=
  check_range "matrix[uni] indexing" name (rows x) n_ ;;
  ret (row x (n_ - 1)).

(** matrix[multi] = matrix *)
Definition rvalue_matrix_multi (x : Matrix T) (name : string)
           (ns_ : list Z) : M (Matrix T) :=
  for_each (fun n =>
              check_range "matrix[multi] row indexing" name (rows x) n) ns_ ;;
  ret (indexed_rows x (minus_one ns_)).

(** matrix[min:N] = matrix *)
Definition rvalue_matrix_min (x : Matrix T) (name : string) (min_ : Z)
  : M (Matrix T) :=
  let row_size := rows x - (min_ - 1) in
  check_range "matrix[min] row indexing" name (rows x) min_ ;;
  ret (bottomRows x row_size).

(** matrix[:max] = matrix *)
Definition rvalue_matrix_max (x : Matrix T) (name : string) (max_ : Z)
  : M (Matrix T) :=
  if max_ >? 0 then
    check_range "matrix[max] row indexing" name (rows x) max_ ;;
    ret (topRows x max_)
  else
    ret (topRows x 0).

(** matrix[min_max] = matrix *)
Definition rvalue_matrix_min_max (x : Matrix T) (name : string)
           (min_ max_ : Z) : M (Matrix T) :=
  check_range "matrix[min_max] min row indexing" name (rows x) min_ ;;
  if max_ >=? min_ then
    check_range "matrix[min_max] max row indexing" name (rows x) max_ ;;
    ret (middleRows x (min_ - 1) (max_ - min_ + 1))
  else
    ret (middleRows x (min_ - 1) 0).

End MatrixRowOverloads.

(** ** Values and single-index dispatch *)

(** What an index list can be resolved against, and what comes out: a
    scalar, an Eigen vector, an Eigen matrix, or a [std::vector] of such. *)
#[warnings="-register-all"]
Inductive value (T : Type) : Type :=
| Scalar (s : T)
| Vec (v : Vector T)
| Mat (x : Matrix T)
| StdVec (vs : list (value T)).
Arguments Scalar {T} s.
Arguments Vec {T} v.
Arguments Mat {T} x.
Arguments StdVec {T} vs.

Section Dispatch.
Context {T : Type}.

Definition as_value {A} (inj : A -> value T) (m : M A) : M (value T) :=
  a <- m ;; ret (inj a).

(** [rvalue(v, name, idx)] for an Eigen vector [v]: overload resolution on
    the index type. *)
Definition rvalue_vector (v : Vector T) (name : string) (idx : index)
  : M (value T) :=
  match idx with
  | index_uni n_ => as_value Scalar (rvalue_vector_uni v name n_)
  | index_multi ns_ => as_value Vec (rvalue_vector_multi v name ns_)
  | index_omni => ret (Vec v)
  | index_min min_ => as_value Vec (rvalue_vector_min v name min_)
  | index_max max_ => as_value Vec (rvalue_vector_max v name max_)
  | index_min_max min_ max_ =>
      as_value Vec (rvalue_vector_min_max v name min_ max_)
  end.

(** [rvalue(x, name, idx)] for an Eigen matrix [x]. *)
Definition rvalue_matrix (x : Matrix T) (name : string) (idx : index)
  : M (value T) :=
  match idx with
  | index_uni n_ => as_value Vec (rvalue_matrix_uni x name n_)
  | index_multi ns_ => as_value Mat (rvalue_matrix_multi x name ns_)
  | index_omni => ret (Mat x)
  | index_min min_ => as_value Mat (rvalue_matrix_min x name min_)
  | index_max max_ => as_value Mat (rvalue_matrix_max x name max_)
  | index_min_max min_ max_ =>
      as_value Mat (rvalue_matrix_min_max x name min_ max_)
  end.

End Dispatch.

(** ** Matrix overloads with two indices (row selector, column selector) *)

Section MatrixOverloads.
Context {T : Type}.

(** matrix[min_max, min_max] = matrix *)
Definition rvalue_matrix_min_max_min_max (x : Matrix T) (name : string)
           (row_min row_max col_min col_max : Z) : M (Matrix T) :=
  check_range "matrix[min_max, min_max] min row indexing" name (rows x)
              row_min ;;
  check_range "matrix[min_max, min_max] min column indexing" name (cols x)
              col_min ;;
  if (row_max >=? row_min) && (col_max >=? col_min) then
    check_range "matrix[min_max, min_max] max row indexing" name (rows x)
                row_max ;;
    check_range "matrix[min_max, min_max] max column indexing" name (cols x)
                col_max ;;
    ret (block x (row_min - 1) (col_min - 1)
               (row_max - (row_min - 1)) (col_max - (col_min - 1)))
  else if row_max >=? row_min then
    check_range "matrix[min_max, min_max] max row indexing" name (rows x)
                row_max ;;
    ret (block x (row_min - 1) (col_min - 1) (row_max - (row_min - 1)) 0)
  else if col_max >=? col_min then
    check_range "matrix[min_max, min_max] max column indexing" name (cols x)
                col_max ;;
    ret (block x (row_min - 1) (col_min - 1) 0 (col_max - (col_min - 1)))
  else
    ret (block x (row_min - 1) (col_min - 1) 0 0).

(** matrix[uni,uni] : scalar *)
Definition rvalue_matrix_uni_uni (x : Matrix T) (name : string)
           (row_n col_n : Z) : M T :=
  check_range "matrix[uni,uni] row indexing" name (rows x) row_n ;;
  check_range "matrix[uni,uni] column indexing" name (cols x) col_n ;;
  ret (coeff2 x (row_n - 1) (col_n - 1)).

(** matrix[uni, multi] = row vector *)
Definition rvalue_matrix_uni_multi (x : Matrix T) (name : string)
           (row_n : Z) (col_ns : list Z) : M (Vector T) :=
  check_range "matrix[uni, multi] row indexing" name (rows x) row_n ;;
  let x_cols := cols x in
  for_each (fun idx_i =>
              check_range "matrix[uni, multi] column indexing" name x_cols
                          idx_i) col_ns ;;
  ret (indexed_row_at x (row_n - 1) (minus_one col_ns)).

(** matrix[multi, uni] = vector *)
Definition rvalue_matrix_multi_uni (x : Matrix T) (name : string)
           (row_ns : list Z) (col_n : Z) : M (Vector T) :=
  check_range "matrix[multi, uni] column indexing" name (cols x) col_n ;;
  let x_rows := rows x in
  for_each (fun idx_i =>
              check_range "matrix[uni, multi] row indexing" name x_rows
                          idx_i) row_ns ;;
  ret (indexed_col_at x (minus_one row_ns) (col_n - 1)).

(** matrix[multi, multi] = matrix *)
Definition rvalue_matrix_multi_multi (x : Matrix T) (name : string)
           (row_ns col_ns : list Z) : M (Matrix T) :=
  let x_rows := rows x in
  let x_cols := cols x in
  for_each (fun idx_i =>
              check_range "matrix[uni, multi] row indexing" name x_rows
                          idx_i) row_ns ;;
  for_each (fun idx_j =>
              check_range "matrix[uni, multi] col indexing" name x_cols
                          idx_j) col_ns ;;
  ret (indexed2 x (minus_one row_ns) (minus_one col_ns)).

(** matrix[Idx, uni] = vector *)
Definition rvalue_matrix_idx_uni (x : Matrix T) (name : string)
           (row_idx : index) (col_n : Z) : M (value T) :=
  check_range "matrix[..., uni] column indexing" name (cols x) col_n ;;
  rvalue_vector (col x (col_n - 1)) name row_idx.

(** matrix[Idx, multi] = matrix *)
Definition rvalue_matrix_idx_multi (x : Matrix T) (name : string)
           (row_idx : index) (col_ns : list Z) : M (value T) :=
  let x_cols := cols x in
  for_each (fun idx_j =>
              check_range "matrix[..., multi] column indexing" name x_cols
                          idx_j) col_ns ;;
  rvalue_matrix (indexed_cols x (minus_one col_ns)) name row_idx.

(** matrix[Idx, omni] = matrix *)
Definition rvalue_matrix_idx_omni (x : Matrix T) (name : string)
           (row_idx : index) : M (value T) :=
  rvalue_matrix x name row_idx.

(** matrix[Idx, min] = matrix *)
Definition rvalue_matrix_idx_min (x : Matrix T) (name : string)
           (row_idx : index) (col_min : Z) : M (value T) :=
  let col_size := cols x - (col_min - 1) in
  check_range "matrix[..., min] column indexing" name (cols x) col_min ;;
  rvalue_matrix (rightCols x col_size) name row_idx.

(** matrix[Idx, max] = matrix *)
Definition rvalue_matrix_idx_max (x : Matrix T) (name : string)
           (row_idx : index) (col_max : Z) : M (value T) :=
  if col_max >? 0 then
    check_range "matrix[..., max] column indexing" name (cols x) col_max ;;
    rvalue_matrix (leftCols x col_max) name row_idx
  else
    rvalue_matrix (leftCols x 0) name row_idx.

(** matrix[Idx, min_max] = matrix *)
Definition rvalue_matrix_idx_min_max (x : Matrix T) (name : string)
           (row_idx : index) (col_min col_max : Z) : M (value T) :=
  check_range "matrix[..., min_max] min column indexing" name (cols x)
              col_min ;;
  let col_start := col_min - 1 in
  if col_max >=? col_min then
    check_range "matrix[..., min_max] max column indexing" name (cols x)
                col_max ;;
    rvalue_matrix (middleCols x col_start (col_max - col_start)) name row_idx
  else
    rvalue_matrix (middleCols x col_start 0) name row_idx.

(** [rvalue(x, name, row_idx, col_idx)] for an Eigen matrix [x]: the
    overload each pair of index types selects when the indices are passed
    as temporaries -- the overload written for the exact pair where there
    is one (it is the more specialised), the one generic in [Idx]
    otherwise. *)
Definition rvalue_matrix2 (x : Matrix T) (name : string)
           (row_idx col_idx : index) : M (value T) :=
  match row_idx, col_idx with
  | index_omni, index_omni => ret (Mat x)
  | index_min_max row_min row_max, index_min_max col_min col_max =>
      as_value Mat (rvalue_matrix_min_max_min_max x name row_min row_max
                                                  col_min col_max)
  | index_uni row_n, index_uni col_n =>
      as_value Scalar (rvalue_matrix_uni_uni x name row_n col_n)
  | index_uni row_n, index_multi col_ns =>
      as_value Vec (rvalue_matrix_uni_multi x name row_n col_ns)
  | index_multi row_ns, index_uni col_n =>
      as_value Vec (rvalue_matrix_multi_uni x name row_ns col_n)
  | index_multi row_ns, index_multi col_ns =>
      as_value Mat (rvalue_matrix_multi_multi x name row_ns col_ns)
  | _, index_uni col_n => rvalue_matrix_idx_uni x name row_idx col_n
  | _, index_multi col_ns => rvalue_matrix_idx_multi x name row_idx col_ns
  | _, index_omni => rvalue_matrix_idx_omni x name row_idx
  | _, index_min col_min => rvalue_matrix_idx_min x name row_idx col_min
  | _, index_max col_max => rvalue_matrix_idx_max x name row_idx col_max
  | _, index_min_max col_min col_max =>
      rvalue_matrix_idx_min_max x name row_idx col_min col_max
  end.

End MatrixOverloads.

(** ** [std::vector] overloads and the resolution of an index list *)

Section Rvalue.
Context {T : Type}.

(** The two helpers of the general array overload are declared in
    [stan/model/indexing/rvalue_index_size.hpp] and
    [stan/model/indexing/rvalue_at.hpp], outside [src/]; the overloads take
    them as parameters. *)
Variable rvalue_index_size : index -> Z -> Z.
Variable rvalue_at : Z -> index -> Z.

(** [v[i]] on a [std::vector]. *)
Definition subscript {A} (v : list A) (i : Z) : option A :=
  if i <? 0 then None else nth_error v (Z.to_nat i).

(** std::vector<T>[uni | Idx] : T[Idx] -- with [rvalue_rest] the call
    [rvalue(., name, idxs...)] on the remaining indices. *)
Definition rvalue_array_uni (rvalue_rest : value T -> M (value T))
           (v : list (value T)) (name : string) (n_ : Z) : M (value T) :=
  check_range "array[uni, ...] index" name (Z.of_nat (length v)) n_ ;;
  match subscript v (n_ - 1) with
  | Some elt => rvalue_rest elt
  | None => unspecified
  end.

Definition is_min_max (idx : index) : bool :=
  match idx with index_min_max _ _ => true | _ => false end.
Definition is_max (idx : index) : bool :=
  match idx with index_max _ => true | _ => false end.

(** [for (int i = ...; i < index_size; ++i) { ... result[i] = ...; }] with
    [count] iterations left; the slots assigned so far are returned in
    order. *)
Fixpoint rvalue_array_loop (rvalue_rest : value T -> M (value T))
         (v : list (value T)) (name : string) (idx1 : index)
         (count : nat) (i : Z) : M (list (value T)) :=
  match count with
  | O => ret []
  | S count' =>
      let n := rvalue_at i idx1 in
      check_range "array[..., ...] index" name (Z.of_nat (length v)) n ;;
      match subscript v (n - 1) with
      | Some elt =>
          result_i <- rvalue_rest elt ;;
          tl <- rvalue_array_loop rvalue_rest v name idx1 count' (i + 1) ;;
          ret (result_i :: tl)
      | None => unspecified
      end
  end.

(** std::vector<T>[Idx1, Idx2] : std::vector<T>[Idx2], for [Idx1] other
    than [index_uni]. *)
Definition rvalue_array (rvalue_rest : value T -> M (value T))
           (v : list (value T)) (name : string) (idx1 : index)
  : M (list (value T)) :=
  let index_size := rvalue_index_size idx1 (Z.of_nat (length v)) in
  check_greater_or_equal "array[..., ...] indexing" "size" index_size 0 ;;
  if (is_min_max idx1 || is_max idx1) && (index_size =? 0) then
    ret []
  else
    rvalue_array_loop rvalue_rest v name idx1 (Z.to_nat index_size) 0.

(** [rvalue(x, name, idxs...)]: overload resolution on the shape of [x]
    and on the index types, recursing through [std::vector] levels.  The
    overloads for the empty index list, for one [index_omni] and for two
    accept every type [T]; they are more specialised than the array
    overload generic in [Idx1] and [Idxs...], so they are the ones selected
    for a [std::vector] as well. *)
Fixpoint rvalue (name : string) (idxs : list index) (x : value T)
         {struct idxs} : M (value T) :=
  match idxs with
  | [] => ret x
  | idx1 :: idxs' =>
      match idx1, idxs' with
      | index_omni, [] => ret x
      | index_omni, [index_omni] => ret x
      | _, _ =>
          match x with
          | Scalar _ => unspecified
          | Vec v =>
              match idxs' with
              | [] => rvalue_vector v name idx1
              | _ => unspecified
              end
          | Mat m =>
              match idxs' with
              | [] => rvalue_matrix m name idx1
              | [idx2] => rvalue_matrix2 m name idx1 idx2
              | _ => unspecified
              end
          | StdVec v =>
              match idx1 with
              | index_uni n_ =>
                  rvalue_array_uni (rvalue name idxs') v name n_
              | _ =>
                  as_value StdVec (rvalue_array (rvalue name idxs') v name
                                                idx1)
              end
          end
      end
  end.

End Rvalue.

(** Modelled from the spec: [rvalue_index_size], from
    [stan/model/indexing/rvalue_index_size.hpp], outside [src/].  Section
    4.4: the number of positions selected by [idx1] against the sequence
    length, 0 for an empty Min/Max/MinMax range. *)
Definition index_size_of (idx : index) (size : Z) : Z :=
  match idx with
  | index_uni _ => 1
  | index_multi ns_ => Z.of_nat (length ns_)
  | index_omni => size
  | index_min min_ => Z.max 0 (size - min_ + 1)
  | index_max max_ => Z.max 0 max_
  | index_min_max min_ max_ => if max_ <? min_ then 0 else max_ - min_ + 1
  end.

(** Modelled from the spec: [rvalue_at], from
    [stan/model/indexing/rvalue_at.hpp], outside [src/].  Section 4.4: the
    1-based source position of output position [i] (0-based), with the
    selections of section 3: Multi gathers its entries in order, Omni and
    Max start at 1, Min and MinMax at their lower bound. *)
Definition positions (i : Z) (idx : index) : Z :=
  match idx with
  | index_uni n_ => n_
  | index_multi ns_ => at_ ns_ i
  | index_omni => i + 1
  | index_min min_ => min_ + i
  | index_max _ => i + 1
  | index_min_max min_ _ => min_ + i
  end.

(** ** Vocabulary of the properties *)

(** What a computation does apart from the value it returns: the checks it
    performs and whether it completes, throws (and what) or is
    unspecified. *)
Definition effects {A} (m : M A) : M unit :=
  (checks m,
   match result m with
   | Ok _ => Ok tt
   | Throw e => Throw e
   | Unspecified => Unspecified
   end).

(** A computation is fail-fast when every check it performed passed, except
    that a range error is raised by the last check performed, which is then
    the only one that did not pass. *)
Definition fail_fast {A} (m : M A) : Prop :=
  match result m with
  | Throw (out_of_range c) =>
      exists t, checks m = t ++ [c] /\ Forall in_range t /\ ~ in_range c
  | _ => Forall in_range (checks m)
  end.

(** [std::is_same<Idx, index_uni>] and [std::is_same<Idx, index_omni>]. *)
Definition is_uni (idx : index) : bool :=
  match idx with index_uni _ => true | _ => false end.
Definition is_omni (idx : index) : bool :=
  match idx with index_omni => true | _ => false end.

(** Two vector expressions with the same extent and the same coefficients,
    and likewise for matrices. *)
Definition vec_equiv {T} (u w : Vector T) : Prop :=
  size u = size w /\ forall i : Z, coeff u i = coeff w i.

Definition mat_equiv {T} (a b : Matrix T) : Prop :=
  rows a = rows b /\ cols a = cols b
  /\ forall i j : Z, coeff2 a i j = coeff2 b i j.

Definition value_equiv {T} (a b : value T) : Prop :=
  match a, b with
  | Scalar s, Scalar t => s = t
  | Vec u, Vec w => vec_equiv u w
  | Mat m, Mat n => mat_equiv m n
  | StdVec l, StdVec k => l = k
  | _, _ => False
  end.

(** Two outcomes that a caller cannot tell apart but for the label of a
    range error: equivalent values, or range errors for the same name,
    extent and position. *)
Definition same_outcome {T} (o1 o2 : outcome (value T)) : Prop :=
  match o1, o2 with
  | Ok a, Ok b => value_equiv a b
  | Throw (out_of_range c1), Throw (out_of_range c2) =>
      c_name c1 = c_name c2 /\ c_max c1 = c_max c2
      /\ c_index c1 = c_index c2
  | _, _ => False
  end.

(** The first entry of [ns] outside [1 .. max], if any. *)
Fixpoint first_invalid (max : Z) (ns : list Z) : option Z :=
  match ns with
  | [] => None
  | n :: ns' =>
      if (1 <=? n) && (n <=? max) then first_invalid max ns' else Some n
  end.

(** The number of positions an index selects out of an extent, as the Eigen
    overloads size what they return: [size() - min_ + 1] for a tail,
    [max_] or 0 for a head, [max_ - min_ + 1] or 0 for a range. *)
Definition selected_extent (idx : index) (extent : Z) : Z :=
  match idx with
  | index_uni _ => 1
  | index_multi ns_ => Z.of_nat (length ns_)
  | index_omni => extent
  | index_min min_ => extent - min_ + 1
  | index_max max_ => if max_ >? 0 then max_ else 0
  | index_min_max min_ max_ => if max_ >=? min_ then max_ - min_ + 1 else 0
  end.

(** ** Concrete inputs *)

Definition v5 : Vector Z := of_list 0 [10; 20; 30; 40; 50].
Definition v0 : Vector Z := of_list 0 [].
Definition m33 : Matrix Z :=
  of_lists 0 3 3 [[1; 2; 3]; [4; 5; 6]; [7; 8; 9]].
Definition nested : list (value Z) :=
  [StdVec [Scalar 1; Scalar 2]; StdVec [Scalar 3; Scalar 4; Scalar 5]].

Abbreviation resolveZ := (@rvalue Z index_size_of positions).

(** * Properties *)

(** ** Reasoning about computations *)

Section Computations.

Lemma bind_Ok {A B} (t : list check) (a : A) (f : A -> M B) :
  bind (t, Ok a) f = (t ++ checks (f a), result (f a)).
Proof. reflexivity. Qed.

Lemma bind_ret_l {A B} (a : A) (f : A -> M B) : bind (ret a) f = f a.
Proof.
  unfold bind, ret. cbn [checks result fst snd app].
  destruct (f a). reflexivity.
Qed.

Lemma bind_Throw {A B} (t : list check) (e : exn) (f : A -> M B) :
  bind (t, Throw e) f = (t, Throw e).
Proof. reflexivity. Qed.

(** The checks of a sequence start with those of its first part. *)
Lemma checks_bind_prefix {A B} (m : M A) (f : A -> M B) :
  exists t, checks (bind m f) = checks m ++ t.
Proof.
  unfold bind. destruct (result m); cbn [checks fst].
  - eexists; reflexivity.
  - exists []. symmetry. apply app_nil_r.
  - exists []. symmetry. apply app_nil_r.
Qed.

Lemma in_rangeb_iff (c : check) : in_rangeb c = true <-> in_range c.
Proof.
  unfold in_range, in_rangeb.
  rewrite andb_true_iff, !Z.leb_le. reflexivity.
Qed.

Lemma check_range_ok (function name : string) (max index : Z) :
  1 <= index <= max ->
  check_range function name max index
  = ([Check function name max index], Ok tt).
Proof.
  intros H. unfold check_range. cbv zeta.
  destruct (in_rangeb _) eqn:E; [reflexivity|].
  assert (Y : in_rangeb (Check function name max index) = true)
    by (apply in_rangeb_iff; exact H).
  congruence.
Qed.

Lemma check_range_throw (function name : string) (max index : Z) :
  ~ 1 <= index <= max ->
  check_range function name max index
  = ([Check function name max index],
     Throw (out_of_range (Check function name max index))).
Proof.
  intros H. unfold check_range. cbv zeta.
  destruct (in_rangeb _) eqn:E; [|reflexivity].
  apply in_rangeb_iff in E. elim H. exact E.
Qed.

(** A loop of checks over positions that are all valid performs every check
    and completes. *)
Lemma for_each_check_ok (function name : string) (max : Z) (ns : list Z) :
  Forall (fun n => 1 <= n <= max) ns ->
  for_each (fun n => check_range function name max n) ns
  = (map (Check function name max) ns, Ok tt).
Proof.
  induction 1 as [|n ns Hn _ IH]; [reflexivity|].
  simpl. rewrite (check_range_ok _ _ _ _ Hn), bind_Ok, IH. reflexivity.
Qed.

(** A loop of checks stops at the first invalid position: the checks
    performed are those up to and including it. *)
Lemma for_each_check_throw (function name : string) (max : Z)
      (pre : list Z) (p : Z) (post : list Z) :
  Forall (fun n => 1 <= n <= max) pre ->
  ~ 1 <= p <= max ->
  for_each (fun n => check_range function name max n) (pre ++ p :: post)
  = (map (Check function name max) (pre ++ [p]),
     Throw (out_of_range (Check function name max p))).
Proof.
  intros Hpre Hp. induction Hpre as [|n pre Hn _ IH]; simpl.
  - rewrite (check_range_throw _ _ _ _ Hp). reflexivity.
  - rewrite (check_range_ok _ _ _ _ Hn), bind_Ok, IH. reflexivity.
Qed.

Lemma map_nth_seq {A B} (g : A -> B) (d : A) (l : list A) :
  map (fun i => g (nth i l d)) (seq 0 (length l)) = map g l.
Proof.
  induction l as [|a l IH]; [reflexivity|].
  simpl. f_equal. rewrite <- seq_shift, map_map. exact IH.
Qed.

Lemma at_minus_one (ps : list Z) (i : nat) :
  (i < length ps)%nat -> at_ (minus_one ps) (Z.of_nat i) = nth i ps 0 - 1.
Proof.
  unfold at_, minus_one. rewrite Nat2Z.id. revert i.
  induction ps as [|p ps IH]; intros [|i] Hi; simpl in *; try lia.
  apply IH. lia.
Qed.

End Computations.

Ltac checked :=
  repeat first
    [ rewrite check_range_ok by lia
    | rewrite check_range_throw by lia
    | rewrite bind_Ok
    | rewrite bind_Throw ];
  cbn [checks result fst snd app].

(** ** Vectors *)

Section VectorProperties.
Context {T : Type}.
Variable rvalue_index_size : index -> Z -> Z.
Variable rvalue_at : Z -> index -> Z.

Local Abbreviation resolve := (rvalue rvalue_index_size rvalue_at).

Lemma to_list_indexed (v : Vector T) (ps : list Z) :
  to_list (indexed v (minus_one ps)) = map (fun p => coeff v (p - 1)) ps.
Proof.
  unfold to_list, indexed, minus_one, at_. cbn [size coeff].
  rewrite Nat2Z.id, length_map.
  rewrite <- (map_nth_seq (fun p => coeff v (p - 1)) 0 ps).
  apply map_ext_in. intros i Hi. apply in_seq in Hi.
  fold (minus_one ps). fold (at_ (minus_one ps) (Z.of_nat i)).
  rewrite at_minus_one by lia. reflexivity.
Qed.

(** C1. For a vector [v] of extent [n]: with [1 <= p <= n], resolving [v]
    with [Uni(p)] performs the one bounds check and returns the scalar at
    0-based offset [p - 1]; with [p < 1] or [p > n] it raises the range
    error of that check, which carries the extent [n] and the position
    [p], and returns no value. *)
Theorem vector_uni_resolves (v : Vector T) (name : string) (p : Z) :
  (1 <= p <= size v ->
   resolve name [index_uni p] (Vec v)
   = ([Check "vector[uni] indexing" name (size v) p],
      Ok (Scalar (coeff v (p - 1)))))
  /\ (p < 1 \/ p > size v ->
      resolve name [index_uni p] (Vec v)
      = ([Check "vector[uni] indexing" name (size v) p],
         Throw (out_of_range
                  (Check "vector[uni] indexing" name (size v) p)))).
Proof.
  split; intros H; cbn [rvalue rvalue_vector];
    unfold as_value, rvalue_vector_uni; checked; reflexivity.
Qed.

(** C2. For a vector [v] of extent [n] and positions [ps] all within
    [1 .. n], resolving [v] with [Multi(ps)] checks every position in order
    and returns a vector of length [|ps|] whose [i]-th coefficient is
    [v[ps[i] - 1]]: the coefficients are those of [ps] mapped through [v],
    order and repetitions kept. *)
Theorem vector_multi_gathers (v : Vector T) (name : string) (ps : list Z) :
  Forall (fun p => 1 <= p <= size v) ps ->
  exists r : Vector T,
    resolve name [index_multi ps] (Vec v)
    = (map (Check "vector[multi] indexing" name (size v)) ps, Ok (Vec r))
    /\ size r = Z.of_nat (length ps)
    /\ (forall i : nat, (i < length ps)%nat ->
                        coeff r (Z.of_nat i) = coeff v (nth i ps 0 - 1))
    /\ to_list r = map (fun p => coeff v (p - 1)) ps.
Proof.
  intros Hps. exists (indexed v (minus_one ps)).
  split; [|split; [|split]].
  - cbn [rvalue rvalue_vector]. unfold as_value, rvalue_vector_multi.
    rewrite (for_each_check_ok _ _ _ _ Hps).
    unfold bind, ret. cbn [checks result fst snd].
    rewrite !app_nil_r. reflexivity.
  - unfold indexed, minus_one. cbn [size]. rewrite length_map. reflexivity.
  - intros i Hi. unfold indexed. cbn [coeff].
    rewrite at_minus_one by exact Hi. reflexivity.
  - apply to_list_indexed.
Qed.

(** C3. For a vector [v] of extent [n] and [MinMax(lo, hi)]: the check of
    [lo] is always the first one performed and an invalid [lo] raises; with
    [lo] valid and [hi >= lo], [hi] is checked too, an invalid [hi] raises,
    and a valid one gives the segment of length [hi - lo + 1] starting at
    offset [lo - 1]; with [lo] valid and [hi < lo] no check of [hi] is
    performed and the result is the segment of length 0 starting at offset
    [lo - 1], whatever [hi] is. *)
Theorem vector_min_max_policy (v : Vector T) (name : string) (lo hi : Z) :
  (exists t,
      checks (resolve name [index_min_max lo hi] (Vec v))
      = Check "vector[min_max] min indexing" name (size v) lo :: t)
  /\ (~ 1 <= lo <= size v ->
      resolve name [index_min_max lo hi] (Vec v)
      = ([Check "vector[min_max] min indexing" name (size v) lo],
         Throw (out_of_range
                  (Check "vector[min_max] min indexing" name (size v) lo))))
  /\ (1 <= lo <= size v -> hi >= lo ->
      (1 <= hi <= size v ->
       resolve name [index_min_max lo hi] (Vec v)
       = ([Check "vector[min_max] min indexing" name (size v) lo;
           Check "vector[min_max] max indexing" name (size v) hi],
          Ok (Vec (segment v (lo - 1) (hi - lo + 1)))))
      /\ (~ 1 <= hi <= size v ->
          resolve name [index_min_max lo hi] (Vec v)
          = ([Check "vector[min_max] min indexing" name (size v) lo;
              Check "vector[min_max] max indexing" name (size v) hi],
             Throw (out_of_range
                      (Check "vector[min_max] max indexing" name (size v)
                             hi)))))
  /\ (1 <= lo <= size v -> hi < lo ->
      resolve name [index_min_max lo hi] (Vec v)
      = ([Check "vector[min_max] min indexing" name (size v) lo],
         Ok (Vec (segment v (lo - 1) 0))))
  /\ (forall len : Z,
         size (segment v (lo - 1) len) = len
         /\ forall i : Z,
             coeff (segment v (lo - 1) len) i = coeff v (lo - 1 + i)).
Proof.
  cbn [rvalue rvalue_vector]. unfold as_value, rvalue_vector_min_max.
  split; [|split; [|split; [|split]]].
  - match goal with
    | |- exists t, checks (bind (bind ?m ?f) ?g) = _ =>
        destruct (checks_bind_prefix (bind m f) g) as [t1 E1];
        destruct (checks_bind_prefix m f) as [t2 E2];
        exists (t2 ++ t1); rewrite E1, E2; reflexivity
    end.
  - intros Hlo. checked. reflexivity.
  - intros Hlo Hge.
    assert (E : (hi >=? lo) = true) by (apply Z.geb_le; lia).
    rewrite E. split; intros Hhi; checked; [|reflexivity].
    replace (hi - (lo - 1)) with (hi - lo + 1) by lia. reflexivity.
  - intros Hlo Hlt.
    assert (E : (hi >=? lo) = false)
      by (rewrite Z.geb_leb; apply Z.leb_gt; lia).
    rewrite E. checked. reflexivity.
  - intros len. split; reflexivity.
Qed.

(** C4. For a vector [v] of extent [n] and [Max(hi)]: with [hi > 0], [hi]
    is checked against [1 .. n], a valid [hi] gives the head of the first
    [hi] coefficients and an invalid one raises; with [hi <= 0] no bounds
    check at all is performed and the result is the empty head, for every
    vector (the empty one included).  [MinMax(lo, hi)] with [hi < lo] is
    not like that: it still checks [lo] and raises when [lo] is invalid. *)
Theorem vector_max_policy (v : Vector T) (name : string) (hi : Z) :
  (hi > 0 -> 1 <= hi <= size v ->
   resolve name [index_max hi] (Vec v)
   = ([Check "vector[max] indexing" name (size v) hi], Ok (Vec (head v hi))))
  /\ (hi > 0 -> hi > size v ->
      resolve name [index_max hi] (Vec v)
      = ([Check "vector[max] indexing" name (size v) hi],
         Throw (out_of_range
                  (Check "vector[max] indexing" name (size v) hi))))
  /\ (hi <= 0 ->
      resolve name [index_max hi] (Vec v) = ([], Ok (Vec (head v 0))))
  /\ (forall len : Z,
         size (head v len) = len
         /\ forall i : Z, coeff (head v len) i = coeff v i)
  /\ (forall lo : Z,
         hi < lo -> ~ 1 <= lo <= size v ->
         resolve name [index_min_max lo hi] (Vec v)
         = ([Check "vector[min_max] min indexing" name (size v) lo],
            Throw (out_of_range
                     (Check "vector[min_max] min indexing" name (size v)
                            lo)))).
Proof.
  cbn [rvalue rvalue_vector].
  unfold as_value, rvalue_vector_max, rvalue_vector_min_max.
  split; [|split; [|split; [|split]]].
  - intros Hpos Hhi.
    assert (E : (hi >? 0) = true) by (apply Z.gtb_lt; lia).
    rewrite E. checked. reflexivity.
  - intros Hpos Hhi.
    assert (E : (hi >? 0) = true) by (apply Z.gtb_lt; lia).
    rewrite E. checked. reflexivity.
  - intros Hle.
    assert (E : (hi >? 0) = false)
      by (rewrite Z.gtb_ltb; apply Z.ltb_ge; lia).
    rewrite E. reflexivity.
  - intros len. split; reflexivity.
  - intros lo Hlt Hlo. checked. reflexivity.
Qed.

End VectorProperties.

(** ** Matrices *)

Section MatrixProperties.
Context {T : Type}.
Variable rvalue_index_size : index -> Z -> Z.
Variable rvalue_at : Z -> index -> Z.

Local Abbreviation resolve := (rvalue rvalue_index_size rvalue_at).

Lemma effects_bind {A A' B B'} (m : M A) (m' : M A')
      (f : A -> M B) (f' : A' -> M B') :
  effects m = effects m' ->
  (forall a a', effects (f a) = effects (f' a')) ->
  effects (bind m f) = effects (bind m' f').
Proof.
  destruct m as [t o], m' as [t' o']. unfold effects, bind.
  cbn [checks result fst snd]. intros E Hf.
  destruct o, o'; inversion E; subst; try reflexivity.
  specialize (Hf a a0). inversion Hf as [[E1 E2]].
  cbn [checks result fst snd]. rewrite E1, E2. reflexivity.
Qed.

Lemma effects_ret {A B} (a : A) (b : B) : effects (ret a) = effects (ret b).
Proof. reflexivity. Qed.

(** The row overloads consult the row extent only. *)
Lemma rvalue_matrix_effects (x y : Matrix T) (name : string) (idx : index) :
  rows x = rows y ->
  effects (rvalue_matrix x name idx) = effects (rvalue_matrix y name idx).
Proof.
  intros E. destruct idx; cbn [rvalue_matrix]; unfold as_value,
    rvalue_matrix_uni, rvalue_matrix_multi, rvalue_matrix_min,
    rvalue_matrix_max, rvalue_matrix_min_max; rewrite ?E;
    repeat first
      [ reflexivity
      | apply effects_ret
      | apply effects_bind; [|intros ? ?]
      | match goal with |- context [if ?b then _ else _] => destruct b end ].
Qed.

(** C5. For a matrix resolved with two [MinMax] indices: the row minimum is
    checked first and, when it is valid, the column minimum second.  With
    both minima valid: if both ranges are non-empty the row maximum and the
    column maximum are checked (an invalid one raises) and the block has
    [row_max - row_min + 1] rows and [col_max - col_min + 1] columns; if
    exactly one range is empty only the other range's maximum is checked,
    and the block has 0 along the empty dimension and the size of the
    non-empty range along the other; if both are empty nothing more is
    checked and the block is 0 by 0.  An empty range raises nothing. *)
Theorem matrix_min_max_min_max_block
        (x : Matrix T) (name : string) (row_min row_max col_min col_max : Z) :
  (exists t,
      checks (resolve name [index_min_max row_min row_max;
                            index_min_max col_min col_max] (Mat x))
      = Check "matrix[min_max, min_max] min row indexing" name (rows x)
              row_min :: t)
  /\ (1 <= row_min <= rows x ->
      exists t,
        checks (resolve name [index_min_max row_min row_max;
                              index_min_max col_min col_max] (Mat x))
        = Check "matrix[min_max, min_max] min row indexing" name (rows x)
                row_min
          :: Check "matrix[min_max, min_max] min column indexing" name
                   (cols x) col_min :: t)
  /\ (1 <= row_min <= rows x -> 1 <= col_min <= cols x ->
      (row_max >= row_min -> col_max >= col_min ->
       (1 <= row_max <= rows x -> 1 <= col_max <= cols x ->
        resolve name [index_min_max row_min row_max;
                      index_min_max col_min col_max] (Mat x)
        = ([Check "matrix[min_max, min_max] min row indexing" name (rows x)
                  row_min;
            Check "matrix[min_max, min_max] min column indexing" name
                  (cols x) col_min;
            Check "matrix[min_max, min_max] max row indexing" name (rows x)
                  row_max;
            Check "matrix[min_max, min_max] max column indexing" name
                  (cols x) col_max],
           Ok (Mat (block x (row_min - 1) (col_min - 1)
                          (row_max - row_min + 1)
                          (col_max - col_min + 1)))))
       /\ (~ 1 <= row_max <= rows x ->
           result (resolve name [index_min_max row_min row_max;
                                 index_min_max col_min col_max] (Mat x))
           = Throw (out_of_range
                      (Check "matrix[min_max, min_max] max row indexing"
                             name (rows x) row_max)))
       /\ (1 <= row_max <= rows x -> ~ 1 <= col_max <= cols x ->
           result (resolve name [index_min_max row_min row_max;
                                 index_min_max col_min col_max] (Mat x))
           = Throw (out_of_range
                      (Check "matrix[min_max, min_max] max column indexing"
                             name (cols x) col_max))))
      /\ (row_max >= row_min -> col_max < col_min ->
          1 <= row_max <= rows x ->
          resolve name [index_min_max row_min row_max;
                        index_min_max col_min col_max] (Mat x)
          = ([Check "matrix[min_max, min_max] min row indexing" name
                    (rows x) row_min;
              Check "matrix[min_max, min_max] min column indexing" name
                    (cols x) col_min;
              Check "matrix[min_max, min_max] max row indexing" name
                    (rows x) row_max],
             Ok (Mat (block x (row_min - 1) (col_min - 1)
                            (row_max - row_min + 1) 0))))
      /\ (row_max < row_min -> col_max >= col_min ->
          1 <= col_max <= cols x ->
          resolve name [index_min_max row_min row_max;
                        index_min_max col_min col_max] (Mat x)
          = ([Check "matrix[min_max, min_max] min row indexing" name
                    (rows x) row_min;
              Check "matrix[min_max, min_max] min column indexing" name
                    (cols x) col_min;
              Check "matrix[min_max, min_max] max column indexing" name
                    (cols x) col_max],
             Ok (Mat (block x (row_min - 1) (col_min - 1)
                            0 (col_max - col_min + 1)))))
      /\ (row_max < row_min -> col_max < col_min ->
          resolve name [index_min_max row_min row_max;
                        index_min_max col_min col_max] (Mat x)
          = ([Check "matrix[min_max, min_max] min row indexing" name
                    (rows x) row_min;
              Check "matrix[min_max, min_max] min column indexing" name
                    (cols x) col_min],
             Ok (Mat (block x (row_min - 1) (col_min - 1) 0 0)))))
  /\ (forall i j p q : Z,
         rows (block x i j p q) = p /\ cols (block x i j p q) = q).
Proof.
  cbn [rvalue rvalue_matrix2].
  unfold as_value, rvalue_matrix_min_max_min_max.
  split; [|split; [|split; [|intros; split; reflexivity]]].
  - match goal with
    | |- exists t, checks (bind (bind ?m ?f) ?g) = _ =>
        destruct (checks_bind_prefix (bind m f) g) as [t1 E1];
        destruct (checks_bind_prefix m f) as [t2 E2];
        exists (t2 ++ t1); rewrite E1, E2; reflexivity
    end.
  - intros Hr. rewrite (check_range_ok _ _ _ _ Hr), bind_Ok.
    cbn [checks result fst snd].
    match goal with
    | |- exists t, checks (bind (?c ++ checks (bind ?m ?f), _) ?g) = _ =>
        destruct (checks_bind_prefix m f) as [t2 E2];
        destruct (checks_bind_prefix
                    (c ++ checks (bind m f), result (bind m f)) g)
          as [t1 E1];
        exists (t2 ++ t1); rewrite E1; cbn [checks fst]; rewrite E2;
        reflexivity
    end.
  - intros Hr Hc.
    assert (Bge : forall a b, a >= b -> (a >=? b) = true)
      by (intros; apply Z.geb_le; lia).
    assert (Blt : forall a b, a < b -> (a >=? b) = false)
      by (intros; rewrite Z.geb_leb; apply Z.leb_gt; lia).
    split; [|split; [|split]].
    + intros Hrn Hcn. rewrite (Bge _ _ Hrn), (Bge _ _ Hcn). cbn [andb].
      split; [|split].
      * intros Hrm Hcm. checked.
        replace (row_max - (row_min - 1)) with (row_max - row_min + 1)
          by lia.
        replace (col_max - (col_min - 1)) with (col_max - col_min + 1)
          by lia.
        reflexivity.
      * intros Hrm. checked. reflexivity.
      * intros Hrm Hcm. checked. reflexivity.
    + intros Hrn Hcn Hrm. rewrite (Bge _ _ Hrn), (Blt _ _ Hcn). cbn [andb].
      checked.
      replace (row_max - (row_min - 1)) with (row_max - row_min + 1) by lia.
      reflexivity.
    + intros Hrn Hcn Hcm. rewrite (Blt _ _ Hrn), (Bge _ _ Hcn). cbn [andb].
      checked.
      replace (col_max - (col_min - 1)) with (col_max - col_min + 1) by lia.
      reflexivity.
    + intros Hrn Hcn. rewrite (Blt _ _ Hrn), (Blt _ _ Hcn). cbn [andb].
      checked. reflexivity.
Qed.

(** C9. Omni is an identity on its axis: for a matrix and any row index,
    resolving with [(row_idx, Omni)] is the same computation as resolving
    with [row_idx] alone; resolving any container with a single [Omni], or
    with two, performs no bounds check and returns the input itself. *)
Theorem omni_is_identity :
  (forall (x : Matrix T) (name : string) (row_idx : index),
      resolve name [row_idx; index_omni] (Mat x)
      = resolve name [row_idx] (Mat x))
  /\ (forall (c : value T) (name : string),
         resolve name [index_omni] c = ([], Ok c))
  /\ (forall (c : value T) (name : string),
         resolve name [index_omni; index_omni] c = ([], Ok c)).
Proof.
  split; [|split].
  - intros x name []; reflexivity.
  - reflexivity.
  - reflexivity.
Qed.

(** C10. For a matrix, any row index and [Max(hi)] with [hi <= 0] as the
    column index: the resolution is that of the row index on the zero-column
    submatrix [leftCols(0)]; it performs exactly the checks of resolving the
    row index alone (all of them against the row extent, none on the
    column) and completes or throws exactly as that does, so an
    out-of-range row position still raises its range error. *)
Theorem matrix_idx_max_nonpositive
        (x : Matrix T) (name : string) (row_idx : index) (hi : Z) :
  hi <= 0 ->
  resolve name [row_idx; index_max hi] (Mat x)
  = rvalue_matrix (leftCols x 0) name row_idx
  /\ rows (leftCols x 0) = rows x
  /\ cols (leftCols x 0) = 0
  /\ effects (resolve name [row_idx; index_max hi] (Mat x))
     = effects (resolve name [row_idx] (Mat x))
  /\ (forall p : Z,
         row_idx = index_uni p -> ~ 1 <= p <= rows x ->
         resolve name [row_idx; index_max hi] (Mat x)
         = ([Check "matrix[uni] indexing" name (rows x) p],
            Throw (out_of_range
                     (Check "matrix[uni] indexing" name (rows x) p)))).
Proof.
  intros Hhi.
  assert (E : (hi >? 0) = false)
    by (rewrite Z.gtb_ltb; apply Z.ltb_ge; lia).
  assert (R : resolve name [row_idx; index_max hi] (Mat x)
              = rvalue_matrix (leftCols x 0) name row_idx).
  { destruct row_idx; cbn [rvalue rvalue_matrix2];
      unfold rvalue_matrix_idx_max; rewrite E; reflexivity. }
  split; [exact R|]. split; [reflexivity|]. split; [reflexivity|].
  split.
  - rewrite R.
    replace (resolve name [row_idx] (Mat x))
      with (rvalue_matrix x name row_idx) by (destruct row_idx; reflexivity).
    apply rvalue_matrix_effects. reflexivity.
  - intros p -> Hp. rewrite R. cbn [rvalue_matrix].
    unfold as_value, rvalue_matrix_uni. cbn [rows leftCols block].
    checked. reflexivity.
Qed.

End MatrixProperties.

(** ** Fail-fast validation *)

Section FailFast.

Lemma fail_fast_ret {A} (a : A) : fail_fast (ret a).
Proof. constructor. Qed.

Lemma fail_fast_unspecified {A} : fail_fast (@unspecified A).
Proof. constructor. Qed.

Lemma fail_fast_check_range (function name : string) (max index : Z) :
  fail_fast (check_range function name max index).
Proof.
  unfold fail_fast, check_range. cbv zeta. cbn [checks result fst snd].
  destruct (in_rangeb _) eqn:E.
  - constructor; [apply in_rangeb_iff; exact E | constructor].
  - exists []. split; [reflexivity|]. split; [constructor|].
    intros Y. apply in_rangeb_iff in Y. congruence.
Qed.

Lemma fail_fast_check_greater_or_equal (function name : string) (y low : Z) :
  fail_fast (check_greater_or_equal function name y low).
Proof.
  unfold check_greater_or_equal. destruct (low <=? y); constructor.
Qed.

Lemma fail_fast_bind {A B} (m : M A) (f : A -> M B) :
  fail_fast m -> (forall a, fail_fast (f a)) -> fail_fast (bind m f).
Proof.
  destruct m as [t o]. unfold bind. cbn [checks result fst snd].
  intros Hm Hf. destruct o as [a| e |]; [|exact Hm|exact Hm].
  specialize (Hf a). unfold fail_fast in *. cbn [checks result fst snd] in *.
  destruct (result (f a)) as [b|[c|]|].
  - apply Forall_app. split; assumption.
  - destruct Hf as (t' & E & Ht' & Hc). exists (t ++ t').
    rewrite E, app_assoc. split; [reflexivity|].
    split; [apply Forall_app; split; assumption | exact Hc].
  - apply Forall_app. split; assumption.
  - apply Forall_app. split; assumption.
Qed.

Lemma fail_fast_for_each {A} (body : A -> M unit) (ns : list A) :
  (forall n, fail_fast (body n)) -> fail_fast (for_each body ns).
Proof.
  intros Hb. induction ns as [|n ns IH]; simpl.
  - apply fail_fast_ret.
  - apply fail_fast_bind; [apply Hb | intros _; exact IH].
Qed.

Lemma fail_fast_as_value {T A} (inj : A -> value T) (m : M A) :
  fail_fast m -> fail_fast (as_value inj m).
Proof.
  intros H. apply fail_fast_bind; [exact H | intros; apply fail_fast_ret].
Qed.

(** A check that did not pass ends the computation: it is the last one
    performed, every check before it passed, and the outcome is its range
    error. *)
Lemma fail_fast_invalid {A} (m : M A) (c : check) :
  fail_fast m -> In c (checks m) -> ~ in_range c ->
  result m = Throw (out_of_range c)
  /\ exists t, checks m = t ++ [c] /\ Forall in_range t.
Proof.
  unfold fail_fast. intros H Hin Hc.
  assert (Habs : Forall in_range (checks m) -> False).
  { intros Hall. rewrite Forall_forall in Hall. exact (Hc (Hall c Hin)). }
  destruct (result m) as [a|[c'|]|]; try (elim Habs; exact H).
  destruct H as (t & E & Ht & Hc').
  assert (c = c'); [|subst c'; split; [reflexivity|exists t; tauto]].
  rewrite E in Hin. apply in_app_or in Hin. destruct Hin as [Hin|[Hin|[]]].
  - rewrite Forall_forall in Ht. elim Hc. exact (Ht c Hin).
  - symmetry. exact Hin.
Qed.

End FailFast.

Ltac fail_fast_step :=
  first
    [ apply fail_fast_ret
    | apply fail_fast_unspecified
    | apply fail_fast_check_range
    | apply fail_fast_check_greater_or_equal
    | apply fail_fast_as_value
    | apply fail_fast_for_each; intros ?
    | apply fail_fast_bind; [|intros ?]
    | match goal with
      | |- fail_fast (if ?b then _ else _) => destruct b
      | |- fail_fast (match ?o with Some _ => _ | None => _ end) =>
          destruct o
      end ].

Section FailFastRvalue.
Context {T : Type}.
Variable rvalue_index_size : index -> Z -> Z.
Variable rvalue_at : Z -> index -> Z.

Local Abbreviation resolve := (rvalue rvalue_index_size rvalue_at).

Lemma fail_fast_rvalue_vector (v : Vector T) (name : string) (idx : index) :
  fail_fast (rvalue_vector v name idx).
Proof.
  destruct idx; cbn [rvalue_vector];
    unfold rvalue_vector_uni, rvalue_vector_multi, rvalue_vector_min,
      rvalue_vector_max, rvalue_vector_min_max;
    cbv zeta; repeat fail_fast_step.
Qed.

Lemma fail_fast_rvalue_matrix (x : Matrix T) (name : string) (idx : index) :
  fail_fast (rvalue_matrix x name idx).
Proof.
  destruct idx; cbn [rvalue_matrix];
    unfold rvalue_matrix_uni, rvalue_matrix_multi, rvalue_matrix_min,
      rvalue_matrix_max, rvalue_matrix_min_max;
    cbv zeta; repeat fail_fast_step.
Qed.

Lemma fail_fast_rvalue_matrix2 (x : Matrix T) (name : string)
      (row_idx col_idx : index) :
  fail_fast (rvalue_matrix2 x name row_idx col_idx).
Proof.
  destruct row_idx, col_idx; cbn [rvalue_matrix2];
    unfold rvalue_matrix_min_max_min_max, rvalue_matrix_uni_uni,
      rvalue_matrix_uni_multi, rvalue_matrix_multi_uni,
      rvalue_matrix_multi_multi, rvalue_matrix_idx_uni,
      rvalue_matrix_idx_multi, rvalue_matrix_idx_omni,
      rvalue_matrix_idx_min, rvalue_matrix_idx_max,
      rvalue_matrix_idx_min_max;
    cbv zeta;
    repeat first
      [ apply fail_fast_rvalue_vector
      | apply fail_fast_rvalue_matrix
      | fail_fast_step ].
Qed.

Lemma fail_fast_rvalue_array_loop (rvalue_rest : value T -> M (value T))
      (v : list (value T)) (name : string) (idx1 : index)
      (count : nat) (i : Z) :
  (forall elt, fail_fast (rvalue_rest elt)) ->
  fail_fast (rvalue_array_loop rvalue_at rvalue_rest v name idx1 count i).
Proof.
  intros Hrest. revert i. induction count as [|count IH]; intros i; simpl.
  - apply fail_fast_ret.
  - apply fail_fast_bind; [apply fail_fast_check_range|intros _].
    destruct (subscript v _); [|apply fail_fast_unspecified].
    apply fail_fast_bind; [apply Hrest|intros ?].
    apply fail_fast_bind; [apply IH|intros ?]. apply fail_fast_ret.
Qed.

Lemma fail_fast_rvalue_array (rvalue_rest : value T -> M (value T))
      (v : list (value T)) (name : string) (idx1 : index) :
  (forall elt, fail_fast (rvalue_rest elt)) ->
  fail_fast (rvalue_array rvalue_index_size rvalue_at rvalue_rest v name
                          idx1).
Proof.
  intros Hrest. unfold rvalue_array. cbv zeta.
  apply fail_fast_bind; [apply fail_fast_check_greater_or_equal|intros _].
  destruct (_ && _); [apply fail_fast_ret|].
  apply fail_fast_rvalue_array_loop. exact Hrest.
Qed.

Lemma fail_fast_rvalue_array_uni (rvalue_rest : value T -> M (value T))
      (v : list (value T)) (name : string) (n_ : Z) :
  (forall elt, fail_fast (rvalue_rest elt)) ->
  fail_fast (rvalue_array_uni rvalue_rest v name n_).
Proof.
  intros Hrest. unfold rvalue_array_uni.
  apply fail_fast_bind; [apply fail_fast_check_range|intros _].
  destruct (subscript v _); [apply Hrest|apply fail_fast_unspecified].
Qed.

(** Every resolution is fail-fast. *)
Lemma fail_fast_rvalue (name : string) (idxs : list index) (x : value T) :
  fail_fast (resolve name idxs x).
Proof.
  revert x. induction idxs as [|idx1 idxs' IH]; intros x.
  - apply fail_fast_ret.
  - assert (G : fail_fast
                  match x with
                  | Scalar _ => unspecified
                  | Vec v =>
                      match idxs' with
                      | [] => rvalue_vector v name idx1
                      | _ => unspecified
                      end
                  | Mat m =>
                      match idxs' with
                      | [] => rvalue_matrix m name idx1
                      | [idx2] => rvalue_matrix2 m name idx1 idx2
                      | _ => unspecified
                      end
                  | StdVec v =>
                      match idx1 with
                      | index_uni n_ =>
                          rvalue_array_uni (resolve name idxs') v name n_
                      | _ =>
                          as_value StdVec
                                   (rvalue_array rvalue_index_size rvalue_at
                                                 (resolve name idxs') v name
                                                 idx1)
                      end
                  end).
    { destruct x as [s|v|m|v].
      - apply fail_fast_unspecified.
      - destruct idxs'; [apply fail_fast_rvalue_vector
                        |apply fail_fast_unspecified].
      - destruct idxs' as [|idx2 [|]];
          [apply fail_fast_rvalue_matrix
          |apply fail_fast_rvalue_matrix2
          |apply fail_fast_unspecified].
      - destruct idx1;
          first [ apply fail_fast_rvalue_array_uni; exact IH
                | apply fail_fast_as_value, fail_fast_rvalue_array;
                  exact IH ]. }
    destruct idx1; try exact G.
    destruct idxs' as [|[] [|]]; try exact G; apply fail_fast_ret.
Qed.

End FailFastRvalue.

(** ** Arrays *)

Section ArrayLoop.
Context {T : Type}.
Variable rvalue_at : Z -> index -> Z.
Variable rvalue_rest : value T -> M (value T).
Variable v : list (value T).
Variable name : string.
Variable idx1 : index.

Local Abbreviation loop :=
  (rvalue_array_loop rvalue_at rvalue_rest v name idx1).
Local Abbreviation len := (Z.of_nat (length v)).

Lemma result_bind {A B} (m : M A) (f : A -> M B) :
  result (bind m f)
  = match result m with
    | Ok a => result (f a)
    | Throw e => Throw e
    | Unspecified => Unspecified
    end.
Proof. unfold bind. destruct (result m); reflexivity. Qed.

Lemma result_check_range_ok (function : string) (max index : Z) :
  1 <= index <= max -> result (check_range function name max index) = Ok tt.
Proof. intros H. rewrite check_range_ok by exact H. reflexivity. Qed.

Lemma subscript_valid {A} (l : list A) (n : Z) :
  1 <= n <= Z.of_nat (length l) -> exists elt, subscript l (n - 1) = Some elt.
Proof.
  intros H. unfold subscript.
  destruct (Z.ltb_spec (n - 1) 0); [lia|].
  destruct (nth_error l (Z.to_nat (n - 1))) eqn:E; [eauto|].
  apply nth_error_None in E. lia.
Qed.

Lemma subscript_of_nat {A} (l : list A) (i : nat) :
  subscript l (Z.of_nat i + 1 - 1) = nth_error l i.
Proof.
  unfold subscript. destruct (Z.ltb_spec (Z.of_nat i + 1 - 1) 0); [lia|].
  f_equal. lia.
Qed.

(** One iteration of the loop that completes. *)
Lemma loop_S_result (count : nat) (i : Z) (elt r : value T) :
  1 <= rvalue_at i idx1 <= len ->
  subscript v (rvalue_at i idx1 - 1) = Some elt ->
  result (rvalue_rest elt) = Ok r ->
  result (loop (S count) i)
  = match result (loop count (i + 1)) with
    | Ok tl => Ok (r :: tl)
    | Throw e => Throw e
    | Unspecified => Unspecified
    end.
Proof.
  intros Hn Hs Hr. cbn [rvalue_array_loop]. cbv zeta.
  rewrite result_bind, result_check_range_ok by exact Hn.
  rewrite Hs, result_bind, Hr, result_bind.
  destruct (result (loop count (i + 1))); reflexivity.
Qed.

(** A loop that returns has assigned every slot: each source position was
    valid and each element resolved. *)
Lemma loop_Ok_inv (count : nat) :
  forall (i : Z) (out : list (value T)),
    result (loop count i) = Ok out ->
    length out = count
    /\ forall j : nat,
        (j < count)%nat ->
        1 <= rvalue_at (i + Z.of_nat j) idx1 <= len
        /\ exists elt r,
            subscript v (rvalue_at (i + Z.of_nat j) idx1 - 1) = Some elt
            /\ result (rvalue_rest elt) = Ok r
            /\ nth_error out j = Some r.
Proof.
  induction count as [|count IH]; intros i out H.
  - inversion H. split; [reflexivity | intros j Hj; lia].
  - cbn [rvalue_array_loop] in H. cbv zeta in H.
    rewrite result_bind in H.
    assert (Hn : 1 <= rvalue_at i idx1 <= len).
    { apply (in_rangeb_iff
               (Check "array[..., ...] index" name len (rvalue_at i idx1))).
      unfold check_range in H. cbv zeta in H. cbn [result snd] in H.
      destruct (in_rangeb _); [reflexivity | discriminate]. }
    rewrite result_check_range_ok in H by exact Hn.
    destruct (subscript v (rvalue_at i idx1 - 1)) as [elt|] eqn:Hs;
      [|discriminate].
    rewrite result_bind in H.
    destruct (result (rvalue_rest elt)) as [r| |] eqn:Hr; try discriminate.
    rewrite result_bind in H.
    destruct (result (loop count (i + 1))) as [tl| |] eqn:Hl;
      try discriminate.
    inversion H; subst out. destruct (IH _ _ Hl) as [Hlen Hall].
    split; [simpl; congruence|].
    intros [|j] Hj.
    + replace (i + Z.of_nat 0) with i by lia.
      split; [exact Hn|]. exists elt, r. auto.
    + replace (i + Z.of_nat (S j)) with (i + 1 + Z.of_nat j) by lia.
      apply Hall. lia.
Qed.

(** The loop returns when every source position is valid and every element
    resolves. *)
Lemma loop_Ok (count : nat) :
  forall i : Z,
    (forall j : nat,
        (j < count)%nat ->
        1 <= rvalue_at (i + Z.of_nat j) idx1 <= len
        /\ exists elt r,
            subscript v (rvalue_at (i + Z.of_nat j) idx1 - 1) = Some elt
            /\ result (rvalue_rest elt) = Ok r) ->
    exists out, result (loop count i) = Ok out.
Proof.
  induction count as [|count IH]; intros i H.
  - exists []. reflexivity.
  - destruct (H 0%nat ltac:(lia)) as (Hn & elt & r & Hs & Hr).
    replace (i + Z.of_nat 0) with i in * by lia.
    destruct (IH (i + 1)) as [tl Hl].
    { intros j Hj.
      replace (i + 1 + Z.of_nat j) with (i + Z.of_nat (S j)) by lia.
      apply H. lia. }
    exists (r :: tl). rewrite (loop_S_result _ _ _ _ Hn Hs Hr), Hl.
    reflexivity.
Qed.

(** The loop stops at the first invalid source position. *)
Lemma loop_Throw (k : nat) :
  forall (count : nat) (i : Z),
    (k < count)%nat ->
    (forall j : nat,
        (j < k)%nat ->
        1 <= rvalue_at (i + Z.of_nat j) idx1 <= len
        /\ exists elt r,
            subscript v (rvalue_at (i + Z.of_nat j) idx1 - 1) = Some elt
            /\ result (rvalue_rest elt) = Ok r) ->
    ~ 1 <= rvalue_at (i + Z.of_nat k) idx1 <= len ->
    result (loop count i)
    = Throw (out_of_range
               (Check "array[..., ...] index" name len
                      (rvalue_at (i + Z.of_nat k) idx1))).
Proof.
  induction k as [|k IH]; intros count i Hk Hpre Hbad;
    (destruct count as [|count]; [lia|]).
  - replace (i + Z.of_nat 0) with i in * by lia.
    cbn [rvalue_array_loop]. cbv zeta.
    rewrite result_bind, check_range_throw by exact Hbad. reflexivity.
  - destruct (Hpre 0%nat ltac:(lia)) as (Hn & elt & r & Hs & Hr).
    replace (i + Z.of_nat 0) with i in * by lia.
    rewrite (loop_S_result _ _ _ _ Hn Hs Hr).
    rewrite (IH count (i + 1)).
    + replace (i + 1 + Z.of_nat k) with (i + Z.of_nat (S k)) by lia.
      reflexivity.
    + lia.
    + intros j Hj.
      replace (i + 1 + Z.of_nat j) with (i + Z.of_nat (S j)) by lia.
      apply Hpre. lia.
    + replace (i + 1 + Z.of_nat k) with (i + Z.of_nat (S k)) by lia.
      exact Hbad.
Qed.

End ArrayLoop.

Section ArrayProperties.
Context {T : Type}.

Local Abbreviation resolve := (@rvalue T index_size_of positions).

Lemma index_size_of_nonneg (idx : index) (n : Z) :
  0 <= n -> 0 <= index_size_of idx n.
Proof.
  intros Hn. destruct idx; cbn [index_size_of]; try lia.
  destruct (Z.ltb_spec max_ min_); lia.
Qed.

(** With the positions counted as the spec says, the general array overload
    is its loop run over [index_size] iterations from 0. *)
Lemma rvalue_array_is_loop (rvalue_rest : value T -> M (value T))
      (v : list (value T)) (name : string) (idx1 : index) :
  rvalue_array index_size_of positions rvalue_rest v name idx1
  = rvalue_array_loop positions rvalue_rest v name idx1
      (Z.to_nat (index_size_of idx1 (Z.of_nat (length v)))) 0.
Proof.
  unfold rvalue_array, check_greater_or_equal. cbv zeta.
  pose proof (index_size_of_nonneg idx1 (Z.of_nat (length v))
                                   ltac:(lia)) as Hs.
  destruct (Z.leb_spec 0 (index_size_of idx1 (Z.of_nat (length v))));
    [|lia].
  rewrite bind_ret_l.
  destruct ((is_min_max idx1 || is_max idx1)
            && (index_size_of idx1 (Z.of_nat (length v)) =? 0)) eqn:E.
  - apply andb_true_iff in E. destruct E as [_ E].
    apply Z.eqb_eq in E. rewrite E. reflexivity.
  - reflexivity.
Qed.

(** How the leading index of an array is dispatched. *)
Lemma resolve_array_cases (v : list (value T)) (name : string)
      (idx1 : index) (rest : list index) :
  is_uni idx1 = false ->
  (idx1 = index_omni /\ (rest = [] \/ rest = [index_omni])
   /\ resolve name (idx1 :: rest) (StdVec v) = ([], Ok (StdVec v)))
  \/ resolve name (idx1 :: rest) (StdVec v)
     = as_value StdVec
         (rvalue_array_loop positions (resolve name rest) v name idx1
            (Z.to_nat (index_size_of idx1 (Z.of_nat (length v)))) 0).
Proof.
  intros Hu.
  destruct idx1; try discriminate Hu;
    try (right; cbn [rvalue]; rewrite rvalue_array_is_loop; reflexivity).
  destruct rest as [|[] [|]];
    try (right; cbn [rvalue]; rewrite rvalue_array_is_loop; reflexivity);
    left; (split; [reflexivity|]); (split; [auto|reflexivity]).
Qed.

Lemma result_as_value {A} (inj : A -> value T) (m : M A) :
  result (as_value inj m)
  = match result m with
    | Ok a => Ok (inj a)
    | Throw e => Throw e
    | Unspecified => Unspecified
    end.
Proof. unfold as_value. rewrite result_bind. reflexivity. Qed.

(** C6. For a sequence [v] and a leading index [idx1] other than [Uni]
    followed by [rest]: a resolution that returns gives a sequence of
    length [index_size] in which, for every output position [i], the source
    position [n = positions(idx1, i)] is valid for [v] and the [i]-th
    output is the resolution of [v[n - 1]] against [rest]; the resolution
    does return whenever every selected position is valid and every selected
    element resolves; and [index_size] is 0 for an empty Min, Max or MinMax
    range. *)
Theorem array_idx_resolution (v : list (value T)) (name : string)
        (idx1 : index) (rest : list index) :
  is_uni idx1 = false ->
  (forall res : value T,
      result (resolve name (idx1 :: rest) (StdVec v)) = Ok res ->
      exists out : list (value T),
        res = StdVec out
        /\ Z.of_nat (length out) = index_size_of idx1 (Z.of_nat (length v))
        /\ forall i : nat,
            (i < length out)%nat ->
            1 <= positions (Z.of_nat i) idx1 <= Z.of_nat (length v)
            /\ exists elt r : value T,
                subscript v (positions (Z.of_nat i) idx1 - 1) = Some elt
                /\ result (resolve name rest elt) = Ok r
                /\ nth_error out i = Some r)
  /\ ((forall i : Z,
          0 <= i < index_size_of idx1 (Z.of_nat (length v)) ->
          1 <= positions i idx1 <= Z.of_nat (length v)
          /\ exists elt r : value T,
              subscript v (positions i idx1 - 1) = Some elt
              /\ result (resolve name rest elt) = Ok r) ->
      exists out : list (value T),
        result (resolve name (idx1 :: rest) (StdVec v)) = Ok (StdVec out))
  /\ (forall n lo hi : Z,
         (hi <= 0 -> index_size_of (index_max hi) n = 0)
         /\ (hi < lo -> index_size_of (index_min_max lo hi) n = 0)
         /\ (lo > n -> index_size_of (index_min lo) n = 0)).
Proof.
  intros Hu.
  pose proof (index_size_of_nonneg idx1 (Z.of_nat (length v))
                                   ltac:(lia)) as Hsz.
  split; [|split].
  - intros res Hres.
    destruct (resolve_array_cases v name idx1 rest Hu)
      as [(-> & Hrest & E)|E]; rewrite E in Hres.
    + inversion Hres; subst res. exists v.
      split; [reflexivity|]. split; [reflexivity|].
      intros i Hi. cbn [positions]. split; [lia|].
      rewrite subscript_of_nat.
      destruct (nth_error v i) as [elt|] eqn:En;
        [|apply nth_error_None in En; lia].
      exists elt, elt. split; [reflexivity|].
      split; [|reflexivity].
      destruct Hrest as [-> | ->]; reflexivity.
    + rewrite result_as_value in Hres.
      destruct (result (rvalue_array_loop _ _ _ _ _ _ _)) as [out| |] eqn:El;
        try discriminate.
      inversion Hres; subst res. exists out.
      destruct (loop_Ok_inv _ _ _ _ _ _ _ _ El) as [Hlen Hall].
      split; [reflexivity|]. split; [lia|].
      intros i Hi. apply (Hall i). lia.
  - intros Hall.
    destruct (resolve_array_cases v name idx1 rest Hu)
      as [(-> & Hrest & E)|E]; rewrite E.
    + exists v. reflexivity.
    + destruct (loop_Ok positions (resolve name rest) v name idx1
                        (Z.to_nat (index_size_of idx1
                                                 (Z.of_nat (length v)))) 0)
        as [out Hout].
      { intros j Hj. apply Hall. lia. }
      exists out. rewrite result_as_value, Hout. reflexivity.
  - intros n lo hi. cbn [index_size_of]. split; [lia|]. split; [|lia].
    intros H. destruct (Z.ltb_spec hi lo); lia.
Qed.

End ArrayProperties.

Section FailFastProperties.
Context {T : Type}.
Variable rvalue_index_size : index -> Z -> Z.
Variable rvalue_at : Z -> index -> Z.

Local Abbreviation resolve := (@rvalue T rvalue_index_size rvalue_at).

(** C7. In every resolution, a position that fails its bounds check ends
    the resolution: the outcome is the range error of that check (no value
    is returned), every check performed before it passed (it is the first
    invalid position met), and it is the last check performed.  The
    positions of a Multi index on a vector are checked left to right, so
    the error is that of the leftmost invalid entry and the entries after
    it are not checked; the general array overload checks its source
    positions in output order, so the error is that of the first invalid
    one. *)
Theorem first_invalid_position_aborts :
  (forall (name : string) (idxs : list index) (x : value T) (c : check),
      In c (checks (resolve name idxs x)) -> ~ in_range c ->
      result (resolve name idxs x) = Throw (out_of_range c)
      /\ exists t, checks (resolve name idxs x) = t ++ [c]
                   /\ Forall in_range t)
  /\ (forall (v : Vector T) (name : string) (pre : list Z) (p : Z)
             (post : list Z),
         Forall (fun n => 1 <= n <= size v) pre ->
         ~ 1 <= p <= size v ->
         resolve name [index_multi (pre ++ p :: post)] (Vec v)
         = (map (Check "vector[multi] indexing" name (size v)) (pre ++ [p]),
            Throw (out_of_range
                     (Check "vector[multi] indexing" name (size v) p))))
  /\ (forall (v : list (value T)) (name : string) (idx1 : index)
             (rest : list index) (k : Z),
         is_uni idx1 = false -> is_omni idx1 = false ->
         0 <= k < rvalue_index_size idx1 (Z.of_nat (length v)) ->
         (forall i : Z,
             0 <= i < k ->
             1 <= rvalue_at i idx1 <= Z.of_nat (length v)
             /\ exists elt r : value T,
                 subscript v (rvalue_at i idx1 - 1) = Some elt
                 /\ result (resolve name rest elt) = Ok r) ->
         ~ 1 <= rvalue_at k idx1 <= Z.of_nat (length v) ->
         result (resolve name (idx1 :: rest) (StdVec v))
         = Throw (out_of_range
                    (Check "array[..., ...] index" name
                           (Z.of_nat (length v)) (rvalue_at k idx1)))
         /\ exists t,
             checks (resolve name (idx1 :: rest) (StdVec v))
             = t ++ [Check "array[..., ...] index" name
                           (Z.of_nat (length v)) (rvalue_at k idx1)]
             /\ Forall in_range t).
Proof.
  split; [|split].
  - intros name idxs x c Hin Hc.
    exact (fail_fast_invalid _ c (fail_fast_rvalue _ _ name idxs x) Hin Hc).
  - intros v name pre p post Hpre Hp.
    cbn [rvalue rvalue_vector]. unfold as_value, rvalue_vector_multi.
    cbv zeta. rewrite (for_each_check_throw _ _ _ _ _ _ Hpre Hp).
    reflexivity.
  - intros v name idx1 rest k Hu Ho Hk Hpre Hbad.
    assert (R : result (resolve name (idx1 :: rest) (StdVec v))
                = Throw (out_of_range
                           (Check "array[..., ...] index" name
                                  (Z.of_nat (length v)) (rvalue_at k idx1)))).
    { assert (E : resolve name (idx1 :: rest) (StdVec v)
                  = as_value StdVec
                      (rvalue_array rvalue_index_size rvalue_at
                                    (resolve name rest) v name idx1))
        by (destruct idx1; try discriminate; reflexivity).
      rewrite E. unfold as_value, rvalue_array, check_greater_or_equal.
      cbv zeta.
      destruct (Z.leb_spec 0 (rvalue_index_size idx1 (Z.of_nat (length v))));
        [|lia].
      destruct (Z.eqb_spec (rvalue_index_size idx1 (Z.of_nat (length v))) 0);
        [lia|].
      rewrite andb_false_r, !result_bind. cbn [result ret snd].
      rewrite (loop_Throw rvalue_at (resolve name rest) v name idx1
                          (Z.to_nat k) _ 0).
      - replace (0 + Z.of_nat (Z.to_nat k)) with k by lia. reflexivity.
      - lia.
      - intros j Hj. apply Hpre. lia.
      - replace (0 + Z.of_nat (Z.to_nat k)) with k by lia. exact Hbad. }
    split; [exact R|].
    pose proof (fail_fast_rvalue rvalue_index_size rvalue_at name
                                 (idx1 :: rest) (StdVec v)) as F.
    unfold fail_fast in F. rewrite R in F.
    destruct F as (t & Et & Ht & _). exists t. split; assumption.
Qed.

End FailFastProperties.

(** ** Check labels of the multi-index matrix overloads *)

Section Labels.
Context {T : Type}.
Variable rvalue_index_size : index -> Z -> Z.
Variable rvalue_at : Z -> index -> Z.

Local Abbreviation resolve := (@rvalue T rvalue_index_size rvalue_at).

(** C8. The row checks of the [matrix[multi, uni]] and
    [matrix[multi, multi]] overloads are made under the label of
    [matrix[uni, multi]]: with an invalid row position [p] and a valid
    column position [c], the index pairs [(Multi [p], Uni c)],
    [(Multi [p], Multi [c])] and [(Uni p, Multi [c])] all raise the same
    range error, labelled "matrix[uni, multi] row indexing", while the
    column check of [(Multi [p], Uni c)] is labelled
    "matrix[multi, uni] column indexing". *)
Theorem matrix_multi_row_label (x : Matrix T) (name : string) (p c : Z) :
  ~ 1 <= p <= rows x -> 1 <= c <= cols x ->
  resolve name [index_multi [p]; index_uni c] (Mat x)
  = ([Check "matrix[multi, uni] column indexing" name (cols x) c;
      Check "matrix[uni, multi] row indexing" name (rows x) p],
     Throw (out_of_range
              (Check "matrix[uni, multi] row indexing" name (rows x) p)))
  /\ resolve name [index_multi [p]; index_multi [c]] (Mat x)
     = ([Check "matrix[uni, multi] row indexing" name (rows x) p],
        Throw (out_of_range
                 (Check "matrix[uni, multi] row indexing" name (rows x) p)))
  /\ resolve name [index_uni p; index_multi [c]] (Mat x)
     = ([Check "matrix[uni, multi] row indexing" name (rows x) p],
        Throw (out_of_range
                 (Check "matrix[uni, multi] row indexing" name (rows x) p))).
Proof.
  intros Hp Hc. cbn [rvalue rvalue_matrix2].
  unfold as_value, rvalue_matrix_multi_uni, rvalue_matrix_multi_multi,
    rvalue_matrix_uni_multi.
  cbv zeta. cbn [for_each].
  split; [|split]; checked; reflexivity.
Qed.

End Labels.

(** * Further properties of the overloads *)

(** ** Lists of coefficients and monad laws *)

Section Slices.
Context {T : Type}.

Lemma map_seq_shift {B} (g : nat -> B) (s k : nat) :
  map (fun i => g (s + i)%nat) (seq 0 k) = map g (seq s k).
Proof.
  revert s. induction k as [|k IH]; intros s; [reflexivity|].
  cbn [seq map]. rewrite Nat.add_0_r. f_equal.
  rewrite <- seq_shift, map_map, <- (IH (S s)).
  apply map_ext. intros i. f_equal. lia.
Qed.

Lemma slice_seq (N : nat) :
  forall a s k : nat,
    (s + k <= N)%nat -> firstn k (skipn s (seq a N)) = seq (a + s) k.
Proof.
  induction N as [|N IH]; intros a s k H.
  - assert (s = 0%nat) by lia. assert (k = 0%nat) by lia. subst.
    reflexivity.
  - destruct s as [|s].
    + cbn [skipn]. rewrite Nat.add_0_r. destruct k as [|k]; [reflexivity|].
      cbn [seq firstn]. f_equal.
      specialize (IH (S a) 0%nat k ltac:(lia)). cbn [skipn] in IH.
      rewrite Nat.add_0_r in IH. exact IH.
    + cbn [seq skipn]. rewrite (IH (S a) s k) by lia. f_equal. lia.
Qed.

(** The coefficients of a segment within the extent are the corresponding
    slice of the coefficients of the vector. *)
Lemma to_list_segment (v : Vector T) (s n : Z) :
  0 <= s -> 0 <= n -> s + n <= size v ->
  to_list (segment v s n)
  = firstn (Z.to_nat n) (skipn (Z.to_nat s) (to_list v)).
Proof.
  intros Hs Hn Hle. unfold to_list, segment. cbn [size coeff].
  rewrite skipn_map, firstn_map.
  rewrite (slice_seq _ 0 (Z.to_nat s) (Z.to_nat n)) by lia.
  cbn [Nat.add].
  rewrite <- (map_seq_shift (fun i => coeff v (Z.of_nat i))).
  apply map_ext. intros i. f_equal. lia.
Qed.

Lemma to_list_equiv (u w : Vector T) :
  vec_equiv u w -> to_list u = to_list w.
Proof.
  intros [Hs Hc]. unfold to_list. rewrite Hs.
  apply map_ext. intros i. apply Hc.
Qed.

Lemma bind_assoc {A B C} (m : M A) (f : A -> M B) (g : B -> M C) :
  bind (bind m f) g = bind m (fun a => bind (f a) g).
Proof.
  destruct m as [t [a|e|]]; unfold bind at 2 4; cbn [checks result fst snd];
    try reflexivity.
  unfold bind. cbn [checks result fst snd].
  destruct (result (f a)); cbn [checks result fst snd];
    rewrite ?app_assoc; reflexivity.
Qed.

Lemma bind_ret_r {A} (m : M A) : bind m ret = m.
Proof.
  destruct m as [t [a|e|]]; unfold bind, ret; cbn [checks result fst snd];
    rewrite ?app_nil_r; reflexivity.
Qed.

(** The outcome of a loop of checks: the error of the first invalid entry,
    whatever the label. *)
Lemma result_for_each_check (function name : string) (max : Z)
      (ns : list Z) :
  result (for_each (fun n => check_range function name max n) ns)
  = match first_invalid max ns with
    | None => Ok tt
    | Some p => Throw (out_of_range (Check function name max p))
    end.
Proof.
  induction ns as [|n ns IH]; [reflexivity|].
  cbn [for_each first_invalid]. rewrite result_bind.
  unfold check_range at 1. cbv zeta. cbn [result snd].
  change (in_rangeb (Check function name max n))
    with ((1 <=? n) && (n <=? max)).
  destruct ((1 <=? n) && (n <=? max)); [exact IH|reflexivity].
Qed.

Lemma first_invalid_None (max : Z) (ns : list Z) :
  first_invalid max ns = None <-> Forall (fun n => 1 <= n <= max) ns.
Proof.
  induction ns as [|n ns IH]; cbn [first_invalid].
  - split; [constructor|reflexivity].
  - destruct ((1 <=? n) && (n <=? max)) eqn:E.
    + apply andb_true_iff in E. rewrite !Z.leb_le in E. rewrite IH.
      split; [intros H; constructor; assumption|].
      intros H. inversion H. assumption.
    + apply andb_false_iff in E. rewrite !Z.leb_gt in E.
      split; [discriminate|]. intros H. inversion H. lia.
Qed.

Lemma first_invalid_Some (max : Z) (ns : list Z) (p : Z) :
  first_invalid max ns = Some p <->
  exists pre post,
    ns = pre ++ p :: post
    /\ Forall (fun n => 1 <= n <= max) pre /\ ~ 1 <= p <= max.
Proof.
  induction ns as [|n ns IH]; cbn [first_invalid].
  - split; [discriminate|]. intros (pre & post & E & _).
    destruct pre; discriminate E.
  - destruct ((1 <=? n) && (n <=? max)) eqn:E.
    + apply andb_true_iff in E. rewrite !Z.leb_le in E. rewrite IH.
      split.
      * intros (pre & post & -> & Hpre & Hp).
        exists (n :: pre), post. split; [reflexivity|].
        split; [constructor; assumption|exact Hp].
      * intros (pre & post & Ens & Hpre & Hp).
        destruct pre as [|a pre]; inversion Ens; subst; [lia|].
        inversion Hpre. exists pre, post. auto.
    + apply andb_false_iff in E. rewrite !Z.leb_gt in E. split.
      * intros H. inversion H; subst. exists [], ns.
        split; [reflexivity|]. split; [constructor|lia].
      * intros (pre & post & Ens & Hpre & Hp).
        destruct pre as [|a pre]; inversion Ens; subst; [reflexivity|].
        inversion Hpre. lia.
Qed.

End Slices.

(** ** Vector ranges *)

Section VectorRanges.
Context {T : Type}.
Variable rvalue_index_size : index -> Z -> Z.
Variable rvalue_at : Z -> index -> Z.

Local Abbreviation resolve := (@rvalue T rvalue_index_size rvalue_at).

(** X1. [Min(lo)] on a vector of extent [n] returns exactly when
    [1 <= lo <= n]: the result is then the tail from offset [lo - 1], of
    length [n - lo + 1 >= 1], whose coefficients are those of [v] with the
    first [lo - 1] dropped.  Every other [lo] raises, [lo = n + 1]
    included: a tail is never empty, and [Min(1)] raises on the empty
    vector. *)
Theorem vector_min_tail (v : Vector T) (name : string) (lo : Z) :
  (1 <= lo <= size v ->
   exists r : Vector T,
     resolve name [index_min lo] (Vec v)
     = ([Check "vector[min] indexing" name (size v) lo], Ok (Vec r))
     /\ size r = size v - lo + 1
     /\ 1 <= size r
     /\ (forall i : Z, coeff r i = coeff v (lo - 1 + i))
     /\ to_list r = skipn (Z.to_nat (lo - 1)) (to_list v))
  /\ (~ 1 <= lo <= size v ->
      resolve name [index_min lo] (Vec v)
      = ([Check "vector[min] indexing" name (size v) lo],
         Throw (out_of_range
                  (Check "vector[min] indexing" name (size v) lo)))).
Proof.
  cbn [rvalue rvalue_vector]. unfold as_value, rvalue_vector_min.
  split; intros H; checked; [|reflexivity].
  exists (tail v (size v - lo + 1)).
  split; [reflexivity|]. split; [reflexivity|].
  split; [cbn [size tail segment]; lia|]. split.
  - intros i. unfold tail, segment. cbn [coeff]. f_equal. lia.
  - unfold tail. rewrite to_list_segment by lia.
    replace (size v - (size v - lo + 1)) with (lo - 1) by lia.
    apply firstn_all2. rewrite length_skipn. unfold to_list.
    rewrite length_map, length_seq. lia.
Qed.

(** X2. In terms of coefficient lists: [MinMax(lo, hi)] with
    [1 <= lo <= hi <= n] returns [hi - lo + 1] coefficients of [v] from
    offset [lo - 1]; [Max(hi)] with [1 <= hi <= n] returns the first [hi]
    coefficients; the empty ranges ([hi < lo] with [lo] valid, [hi <= 0])
    return no coefficient. *)
Theorem vector_ranges_are_slices (v : Vector T) (name : string)
        (lo hi : Z) :
  (1 <= lo <= size v -> lo <= hi <= size v ->
   exists r : Vector T,
     result (resolve name [index_min_max lo hi] (Vec v)) = Ok (Vec r)
     /\ to_list r
        = firstn (Z.to_nat (hi - lo + 1))
                 (skipn (Z.to_nat (lo - 1)) (to_list v)))
  /\ (1 <= hi <= size v ->
      exists r : Vector T,
        result (resolve name [index_max hi] (Vec v)) = Ok (Vec r)
        /\ to_list r = firstn (Z.to_nat hi) (to_list v))
  /\ (1 <= lo <= size v -> hi < lo ->
      exists r : Vector T,
        result (resolve name [index_min_max lo hi] (Vec v)) = Ok (Vec r)
        /\ to_list r = [])
  /\ (hi <= 0 ->
      exists r : Vector T,
        result (resolve name [index_max hi] (Vec v)) = Ok (Vec r)
        /\ to_list r = []).
Proof.
  cbn [rvalue rvalue_vector].
  unfold as_value, rvalue_vector_min_max, rvalue_vector_max.
  split; [|split; [|split]].
  - intros Hlo Hhi.
    assert (E : (hi >=? lo) = true) by (apply Z.geb_le; lia).
    rewrite E. checked. eexists. split; [reflexivity|].
    rewrite to_list_segment by lia. do 2 f_equal. lia.
  - intros Hhi.
    assert (E : (hi >? 0) = true) by (apply Z.gtb_lt; lia).
    rewrite E. checked. eexists. split; [reflexivity|].
    unfold head. rewrite to_list_segment by lia. reflexivity.
  - intros Hlo Hlt.
    assert (E : (hi >=? lo) = false)
      by (rewrite Z.geb_leb; apply Z.leb_gt; lia).
    rewrite E. checked. eexists. split; reflexivity.
  - intros Hle.
    assert (E : (hi >? 0) = false)
      by (rewrite Z.gtb_ltb; apply Z.ltb_ge; lia).
    rewrite E. eexists. split; reflexivity.
Qed.

(** X3. Ranges compose: with [1 <= lo <= hi <= n], [MinMax(lo, hi)] selects
    what [Max(hi)] followed by [Min(lo)] selects, and what [Min(lo)]
    followed by [Max(hi - lo + 1)] selects; all five resolutions return. *)
Theorem vector_min_max_composes (v : Vector T) (name : string) (lo hi : Z) :
  1 <= lo <= size v -> lo <= hi <= size v ->
  exists r hd hd_tl tl tl_hd : Vector T,
    result (resolve name [index_min_max lo hi] (Vec v)) = Ok (Vec r)
    /\ result (resolve name [index_max hi] (Vec v)) = Ok (Vec hd)
    /\ result (resolve name [index_min lo] (Vec hd)) = Ok (Vec hd_tl)
    /\ result (resolve name [index_min lo] (Vec v)) = Ok (Vec tl)
    /\ result (resolve name [index_max (hi - lo + 1)] (Vec tl))
       = Ok (Vec tl_hd)
    /\ vec_equiv r hd_tl /\ vec_equiv r tl_hd
    /\ to_list r = to_list hd_tl /\ to_list r = to_list tl_hd.
Proof.
  intros Hlo Hhi.
  exists (segment v (lo - 1) (hi - (lo - 1))), (head v hi),
    (tail (head v hi) (size (head v hi) - lo + 1)),
    (tail v (size v - lo + 1)),
    (head (tail v (size v - lo + 1)) (hi - lo + 1)).
  assert (E1 : vec_equiv (segment v (lo - 1) (hi - (lo - 1)))
                         (tail (head v hi) (size (head v hi) - lo + 1))).
  { split; [cbn [size head tail segment]; lia|].
    intros i. cbn [coeff head tail segment size]. f_equal. lia. }
  assert (E2 : vec_equiv (segment v (lo - 1) (hi - (lo - 1)))
                         (head (tail v (size v - lo + 1)) (hi - lo + 1))).
  { split; [cbn [size head tail segment]; lia|].
    intros i. cbn [coeff head tail segment size]. f_equal. lia. }
  cbn [rvalue rvalue_vector].
  unfold as_value, rvalue_vector_min_max, rvalue_vector_max,
    rvalue_vector_min.
  assert (B1 : (hi >=? lo) = true) by (apply Z.geb_le; lia).
  assert (B2 : (hi >? 0) = true) by (apply Z.gtb_lt; lia).
  assert (B3 : (hi - lo + 1 >? 0) = true) by (apply Z.gtb_lt; lia).
  rewrite B1, B2, B3.
  repeat split; try exact (proj1 E1); try exact (proj2 E1);
    try exact (proj1 E2); try exact (proj2 E2);
    try (apply to_list_equiv; assumption).
  - checked. reflexivity.
  - checked. reflexivity.
  - rewrite check_range_ok by (cbn [size head segment]; lia).
    checked. reflexivity.
  - checked. reflexivity.
  - rewrite check_range_ok by (cbn [size tail segment]; lia).
    checked. reflexivity.
Qed.

(** X4. A [Multi] index with the single entry [p] agrees with [Uni(p)]:
    for a valid [p] it returns the vector of extent 1 holding the scalar
    [Uni(p)] returns; for an invalid [p] both raise a range error for the
    same extent and position (under their own labels). *)
Theorem vector_multi_singleton_is_uni (v : Vector T) (name : string)
        (p : Z) :
  (1 <= p <= size v ->
   exists r : Vector T,
     result (resolve name [index_multi [p]] (Vec v)) = Ok (Vec r)
     /\ size r = 1
     /\ result (resolve name [index_uni p] (Vec v)) = Ok (Scalar (coeff r 0)))
  /\ (~ 1 <= p <= size v ->
      same_outcome (result (resolve name [index_multi [p]] (Vec v)))
                   (result (resolve name [index_uni p] (Vec v)))
      /\ result (resolve name [index_uni p] (Vec v))
         = Throw (out_of_range
                    (Check "vector[uni] indexing" name (size v) p))).
Proof.
  cbn [rvalue rvalue_vector].
  unfold as_value, rvalue_vector_multi, rvalue_vector_uni.
  cbv zeta. cbn [for_each].
  split; intros H; checked.
  - eexists. split; [reflexivity|]. split; reflexivity.
  - split; [|reflexivity]. cbn [same_outcome c_name c_max c_index]. tauto.
Qed.

End VectorRanges.

(** ** Shapes of the selections *)

Section Inversion.

Lemma result_bind_Ok_inv {A B} (m : M A) (f : A -> M B) (b : B) :
  result (bind m f) = Ok b ->
  exists a, result m = Ok a /\ result (f a) = Ok b.
Proof.
  rewrite result_bind. destruct (result m) as [a| |]; try discriminate.
  intros H. exists a. split; [reflexivity|exact H].
Qed.

Lemma result_check_range_Ok_inv (function name : string) (max index : Z)
      (u : unit) :
  result (check_range function name max index) = Ok u ->
  1 <= index <= max.
Proof.
  unfold check_range. cbv zeta. cbn [result snd].
  destruct (in_rangeb _) eqn:E; [|discriminate].
  intros _. apply in_rangeb_iff in E. exact E.
Qed.

Lemma result_as_value_Ok_inv {T A} (inj : A -> value T) (m : M A)
      (res : value T) :
  result (as_value inj m) = Ok res ->
  exists a, result m = Ok a /\ res = inj a.
Proof.
  unfold as_value. intros H. apply result_bind_Ok_inv in H.
  destruct H as (a & Hm & H). inversion H. eauto.
Qed.

End Inversion.

Ltac ok_inv :=
  repeat match goal with
    | H : result (as_value _ _) = Ok _ |- _ =>
        let a := fresh "a" in
        let E := fresh "E" in
        apply result_as_value_Ok_inv in H; destruct H as (a & H & E);
        try subst
    | H : result (bind _ _) = Ok _ |- _ =>
        let a := fresh "u" in
        let Hm := fresh "Hm" in
        apply result_bind_Ok_inv in H; destruct H as (a & Hm & H)
    | H : result (check_range _ _ _ _) = Ok _ |- _ =>
        apply result_check_range_Ok_inv in H
    | H : result (ret _) = Ok _ |- _ => inversion H; clear H; try subst
    | H : result (if ?a >? ?b then _ else _) = Ok _ |- _ =>
        destruct (Z.gtb_spec a b)
    | H : result (if ?a >=? ?b then _ else _) = Ok _ |- _ =>
        destruct (Z.geb_spec a b)
    | H : result (if (?a >=? ?b) && (?c >=? ?d) then _ else _) = Ok _
      |- _ =>
        destruct (Z.geb_spec a b), (Z.geb_spec c d); cbn [andb] in H
    end.

Ltac shape_done :=
  cbn [rows cols size block row col topRows bottomRows middleRows leftCols
       rightCols middleCols indexed indexed_rows indexed_cols indexed2
       indexed_row_at indexed_col_at segment head tail selected_extent]
    in *;
  unfold minus_one in *; rewrite ?length_map in *;
  repeat match goal with
    | |- context [?a >? ?b] => destruct (Z.gtb_spec a b)
    | |- context [?a >=? ?b] => destruct (Z.geb_spec a b)
    end;
  lia.

Section Shapes.
Context {T : Type}.
Variable rvalue_index_size : index -> Z -> Z.
Variable rvalue_at : Z -> index -> Z.

Local Abbreviation resolve := (@rvalue T rvalue_index_size rvalue_at).

Lemma rvalue_vector_shape (v : Vector T) (name : string) (idx : index)
      (res : value T) :
  result (rvalue_vector v name idx) = Ok res ->
  if is_uni idx then exists s, res = Scalar s
  else exists r, res = Vec r /\ size r = selected_extent idx (size v).
Proof.
  intros H. destruct idx; cbn [rvalue_vector is_uni] in *;
    unfold rvalue_vector_uni, rvalue_vector_multi, rvalue_vector_min,
      rvalue_vector_max, rvalue_vector_min_max in H; cbv zeta in H;
    ok_inv; eexists; try reflexivity; (split; [reflexivity|shape_done]).
Qed.

Lemma rvalue_matrix_shape (x : Matrix T) (name : string) (idx : index)
      (res : value T) :
  result (rvalue_matrix x name idx) = Ok res ->
  if is_uni idx then exists r, res = Vec r /\ size r = cols x
  else exists m, res = Mat m
                 /\ rows m = selected_extent idx (rows x)
                 /\ cols m = cols x.
Proof.
  intros H. destruct idx; cbn [rvalue_matrix is_uni] in *;
    unfold rvalue_matrix_uni, rvalue_matrix_multi, rvalue_matrix_min,
      rvalue_matrix_max, rvalue_matrix_min_max in H; cbv zeta in H;
    ok_inv; eexists; (split; [reflexivity|]);
    try (split; [|reflexivity]); shape_done.
Qed.

(** X5. With one index, a returned selection has the shape the index
    announces: on a vector, [Uni] gives a scalar and every other index a
    vector whose extent is the number of positions selected; on a matrix,
    [Uni] gives a row vector of extent [cols] and every other index a
    matrix with that many rows and all the columns -- an empty row
    selection still has [cols] columns. *)
Theorem selection_shape_one_index (name : string) (idx : index)
        (res : value T) :
  (forall v : Vector T,
      result (resolve name [idx] (Vec v)) = Ok res ->
      if is_uni idx then exists s, res = Scalar s
      else exists r, res = Vec r /\ size r = selected_extent idx (size v))
  /\ (forall x : Matrix T,
         result (resolve name [idx] (Mat x)) = Ok res ->
         if is_uni idx then exists r, res = Vec r /\ size r = cols x
         else exists m, res = Mat m
                        /\ rows m = selected_extent idx (rows x)
                        /\ cols m = cols x).
Proof.
  split.
  - intros v H.
    replace (resolve name [idx] (Vec v)) with (rvalue_vector v name idx) in H
      by (destruct idx; reflexivity).
    exact (rvalue_vector_shape v name idx res H).
  - intros x H.
    replace (resolve name [idx] (Mat x)) with (rvalue_matrix x name idx) in H
      by (destruct idx; reflexivity).
    exact (rvalue_matrix_shape x name idx res H).
Qed.

(** X6. With two indices on a matrix, a returned selection has one
    dimension per index that is not [Uni]: a scalar for two [Uni], a vector
    for one (its extent the number of positions the other index selects
    along its dimension), and otherwise a matrix with as many rows as the
    row index selects and as many columns as the column index selects. *)
Theorem selection_shape_two_indices (x : Matrix T) (name : string)
        (row_idx col_idx : index) (res : value T) :
  result (resolve name [row_idx; col_idx] (Mat x)) = Ok res ->
  match is_uni row_idx, is_uni col_idx with
  | true, true => exists s, res = Scalar s
  | true, false =>
      exists r, res = Vec r /\ size r = selected_extent col_idx (cols x)
  | false, true =>
      exists r, res = Vec r /\ size r = selected_extent row_idx (rows x)
  | false, false =>
      exists m, res = Mat m
                /\ rows m = selected_extent row_idx (rows x)
                /\ cols m = selected_extent col_idx (cols x)
  end.
Proof.
  intros H.
  replace (resolve name [row_idx; col_idx] (Mat x))
    with (rvalue_matrix2 x name row_idx col_idx) in H
    by (destruct row_idx, col_idx; reflexivity).
  destruct col_idx.
  - (* column Uni *)
    destruct row_idx; cbn [rvalue_matrix2 is_uni] in *;
      unfold rvalue_matrix_uni_uni, rvalue_matrix_multi_uni,
        rvalue_matrix_idx_uni in H; cbv zeta in H; ok_inv;
      try (eexists; reflexivity);
      try (eexists; split; [reflexivity|shape_done]);
      match goal with
      | H : result (rvalue_vector _ _ ?i) = Ok _ |- _ =>
          apply rvalue_vector_shape in H; cbn [is_uni] in H;
          destruct H as (r & -> & Hs); exists r;
          split; [reflexivity|]; rewrite Hs; reflexivity
      end.
  - (* column Multi *)
    destruct row_idx; cbn [rvalue_matrix2 is_uni] in *;
      unfold rvalue_matrix_uni_multi, rvalue_matrix_multi_multi,
        rvalue_matrix_idx_multi in H; cbv zeta in H; ok_inv;
      try (eexists; split; [reflexivity|shape_done]);
      try (eexists; split; [reflexivity|split; shape_done]);
      match goal with
      | H : result (rvalue_matrix _ _ ?i) = Ok _ |- _ =>
          apply rvalue_matrix_shape in H; cbn [is_uni] in H;
          destruct H as (m & -> & Hr & Hc); exists m;
          split; [reflexivity|]; rewrite Hr, Hc; split; shape_done
      end.
  - (* column Omni *)
    destruct row_idx; cbn [rvalue_matrix2 is_uni] in *;
      unfold rvalue_matrix_idx_omni in H; ok_inv;
      try (eexists; split; [reflexivity|split; shape_done]);
      match goal with
      | H : result (rvalue_matrix _ _ ?i) = Ok _ |- _ =>
          apply rvalue_matrix_shape in H; cbn [is_uni] in H;
          first [ destruct H as (m & -> & Hr & Hc); exists m;
                  split; [reflexivity|]; rewrite Hr, Hc; split; shape_done
                | destruct H as (r & -> & Hs); exists r;
                  split; [reflexivity|]; rewrite Hs; shape_done ]
      end.
  - (* column Min *)
    destruct row_idx; cbn [rvalue_matrix2 is_uni] in *;
      unfold rvalue_matrix_idx_min in H; cbv zeta in H; ok_inv;
      match goal with
      | H : result (rvalue_matrix _ _ ?i) = Ok _ |- _ =>
          apply rvalue_matrix_shape in H; cbn [is_uni] in H;
          first [ destruct H as (m & -> & Hr & Hc); exists m;
                  split; [reflexivity|]; rewrite Hr, Hc; split; shape_done
                | destruct H as (r & -> & Hs); exists r;
                  split; [reflexivity|]; rewrite Hs; shape_done ]
      end.
  - (* column Max *)
    destruct row_idx; cbn [rvalue_matrix2 is_uni] in *;
      unfold rvalue_matrix_idx_max in H; cbv zeta in H; ok_inv;
      match goal with
      | H : result (rvalue_matrix _ _ ?i) = Ok _ |- _ =>
          apply rvalue_matrix_shape in H; cbn [is_uni] in H;
          first [ destruct H as (m & -> & Hr & Hc); exists m;
                  split; [reflexivity|]; rewrite Hr, Hc; split; shape_done
                | destruct H as (r & -> & Hs); exists r;
                  split; [reflexivity|]; rewrite Hs; shape_done ]
      end.
  - (* column MinMax *)
    destruct row_idx; cbn [rvalue_matrix2 is_uni] in *;
      unfold rvalue_matrix_idx_min_max, rvalue_matrix_min_max_min_max in H;
      cbv zeta in H; ok_inv;
      try (eexists; split; [reflexivity|split; shape_done]);
      match goal with
      | H : result (rvalue_matrix _ _ ?i) = Ok _ |- _ =>
          apply rvalue_matrix_shape in H; cbn [is_uni] in H;
          first [ destruct H as (m & -> & Hr & Hc); exists m;
                  split; [reflexivity|]; rewrite Hr, Hc; split; shape_done
                | destruct H as (r & -> & Hs); exists r;
                  split; [reflexivity|]; rewrite Hs; shape_done ]
      end.
Qed.

End Shapes.

(** ** Matrices: scalars, rows and gathers *)

Ltac run_result :=
  repeat first
    [ rewrite result_as_value
    | rewrite result_bind
    | rewrite result_for_each_check
    | progress unfold in_rangeb
    | progress cbn [result snd fst check_range ret c_index c_max
                    size rows cols row col block leftCols rightCols
                    middleCols] ].

Ltac split_range :=
  match goal with
  | |- context [(1 <=? ?i) && (?i <=? ?m)] =>
      let E := fresh "E" in
      destruct ((1 <=? i) && (i <=? m)) eqn:E;
      [ apply andb_true_iff in E; rewrite !Z.leb_le in E
      | apply andb_false_iff in E; rewrite !Z.leb_gt in E ]
  end.

Section MatrixFurther.
Context {T : Type}.
Variable rvalue_index_size : index -> Z -> Z.
Variable rvalue_at : Z -> index -> Z.

Local Abbreviation resolve := (@rvalue T rvalue_index_size rvalue_at).

(** X7. [(Uni r, Uni c)] on a matrix returns the coefficient at row
    [r - 1], column [c - 1] when both positions are valid.  The row is
    checked first, against the row extent: an invalid row raises without
    the column being looked at; a valid row with an invalid column raises
    the column's error, against the column extent. *)
Theorem matrix_uni_uni_scalar (x : Matrix T) (name : string) (r c : Z) :
  (1 <= r <= rows x -> 1 <= c <= cols x ->
   resolve name [index_uni r; index_uni c] (Mat x)
   = ([Check "matrix[uni,uni] row indexing" name (rows x) r;
       Check "matrix[uni,uni] column indexing" name (cols x) c],
      Ok (Scalar (coeff2 x (r - 1) (c - 1)))))
  /\ (~ 1 <= r <= rows x ->
      resolve name [index_uni r; index_uni c] (Mat x)
      = ([Check "matrix[uni,uni] row indexing" name (rows x) r],
         Throw (out_of_range
                  (Check "matrix[uni,uni] row indexing" name (rows x) r))))
  /\ (1 <= r <= rows x -> ~ 1 <= c <= cols x ->
      resolve name [index_uni r; index_uni c] (Mat x)
      = ([Check "matrix[uni,uni] row indexing" name (rows x) r;
          Check "matrix[uni,uni] column indexing" name (cols x) c],
         Throw (out_of_range
                  (Check "matrix[uni,uni] column indexing" name (cols x)
                         c)))).
Proof.
  cbn [rvalue rvalue_matrix2]. unfold as_value, rvalue_matrix_uni_uni.
  split; [|split]; intros; checked; reflexivity.
Qed.

(** X8. Which position is reported when both the row and the column are
    invalid depends on the overload.  [(Uni, Uni)], [(Uni, Multi)] and
    [(MinMax, MinMax)] check the row first and report it; [(Multi, Uni)]
    checks the column first; and with a [Min], a positive [Max] or a
    [MinMax] column index next to any other row index the column is
    checked before the row index is looked at, so the column is
    reported -- also for a [Uni] row. *)
Theorem matrix_validation_order (x : Matrix T) (name : string)
        (row_idx : index) (r c : Z) :
  ~ 1 <= r <= rows x -> ~ 1 <= c <= cols x ->
  (exists function,
      resolve name [index_uni r; index_uni c] (Mat x)
      = ([Check function name (rows x) r],
         Throw (out_of_range (Check function name (rows x) r))))
  /\ (exists function,
         resolve name [index_uni r; index_multi [c]] (Mat x)
         = ([Check function name (rows x) r],
            Throw (out_of_range (Check function name (rows x) r))))
  /\ (exists function,
         resolve name [index_min_max r r; index_min_max c c] (Mat x)
         = ([Check function name (rows x) r],
            Throw (out_of_range (Check function name (rows x) r))))
  /\ (exists function,
         resolve name [index_multi [r]; index_uni c] (Mat x)
         = ([Check function name (cols x) c],
            Throw (out_of_range (Check function name (cols x) c))))
  /\ (exists function,
         resolve name [row_idx; index_min c] (Mat x)
         = ([Check function name (cols x) c],
            Throw (out_of_range (Check function name (cols x) c))))
  /\ (c > 0 ->
      exists function,
        resolve name [row_idx; index_max c] (Mat x)
        = ([Check function name (cols x) c],
           Throw (out_of_range (Check function name (cols x) c))))
  /\ (is_min_max row_idx = false ->
      exists function,
        resolve name [row_idx; index_min_max c c] (Mat x)
        = ([Check function name (cols x) c],
           Throw (out_of_range (Check function name (cols x) c)))).
Proof.
  intros Hr Hc.
  split; [|split; [|split; [|split; [|split; [|split]]]]].
  - eexists. cbn [rvalue rvalue_matrix2].
    unfold as_value, rvalue_matrix_uni_uni. checked. reflexivity.
  - eexists. cbn [rvalue rvalue_matrix2].
    unfold as_value, rvalue_matrix_uni_multi. checked. reflexivity.
  - eexists. cbn [rvalue rvalue_matrix2].
    unfold as_value, rvalue_matrix_min_max_min_max. checked. reflexivity.
  - eexists. cbn [rvalue rvalue_matrix2].
    unfold as_value, rvalue_matrix_multi_uni. checked. reflexivity.
  - eexists. destruct row_idx; cbn [rvalue rvalue_matrix2];
      unfold rvalue_matrix_idx_min; cbv zeta; checked; reflexivity.
  - intros Hpos. eexists.
    assert (E : (c >? 0) = true) by (apply Z.gtb_lt; lia).
    destruct row_idx; cbn [rvalue rvalue_matrix2];
      unfold rvalue_matrix_idx_max; rewrite E; checked; reflexivity.
  - intros Hmm. eexists.
    destruct row_idx; try discriminate Hmm; cbn [rvalue rvalue_matrix2];
      unfold rvalue_matrix_idx_min_max; cbv zeta; checked; reflexivity.
Qed.

(** X9. With a valid [Uni] row index, indexing a matrix by
    [(Uni r, col_idx)] and indexing its row [r - 1] by [col_idx] cannot be
    told apart but for the label of a range error: both return equivalent
    values, or both raise a range error for the same position against the
    column extent -- for every column index. *)
Theorem matrix_uni_row_then_columns (x : Matrix T) (name : string)
        (r : Z) (col_idx : index) :
  1 <= r <= rows x ->
  same_outcome (result (resolve name [index_uni r; col_idx] (Mat x)))
               (result (resolve name [col_idx] (Vec (row x (r - 1))))).
Proof.
  intros Hr.
  assert (Br : (1 <=? r) && (r <=? rows x) = true)
    by (apply andb_true_iff; rewrite !Z.leb_le; exact Hr).
  destruct col_idx; cbn [rvalue rvalue_matrix2 rvalue_vector rvalue_matrix];
    unfold rvalue_matrix_uni_uni, rvalue_matrix_uni_multi,
      rvalue_matrix_idx_omni, rvalue_matrix_idx_min, rvalue_matrix_idx_max,
      rvalue_matrix_idx_min_max, rvalue_vector_uni, rvalue_vector_multi,
      rvalue_vector_min, rvalue_vector_max, rvalue_vector_min_max,
      rvalue_matrix, rvalue_matrix_uni;
    cbv zeta.
  - (* Uni *)
    run_result. rewrite Br. run_result. split_range; run_result.
    + reflexivity.
    + cbn [same_outcome c_name c_max c_index]. tauto.
  - (* Multi *)
    run_result. rewrite Br. run_result.
    destruct (first_invalid (cols x) ns_); run_result.
    + cbn [same_outcome c_name c_max c_index]. tauto.
    + split; reflexivity.
  - (* Omni *)
    run_result. rewrite Br. run_result. split; reflexivity.
  - (* Min *)
    run_result. split_range; run_result.
    + rewrite Br. run_result. split.
      * cbn [size tail segment row rightCols block cols]. lia.
      * intros i. cbn [coeff tail segment row rightCols block coeff2 size].
        f_equal; lia.
    + cbn [same_outcome c_name c_max c_index]. tauto.
  - (* Max *)
    destruct (Z.gtb_spec max_ 0); run_result.
    + split_range; run_result.
      * rewrite Br. run_result. split.
        -- reflexivity.
        -- intros i. cbn [coeff head segment row leftCols block coeff2].
           reflexivity.
      * cbn [same_outcome c_name c_max c_index]. tauto.
    + rewrite Br. run_result. split.
      * reflexivity.
      * intros i. cbn [coeff head segment row leftCols block coeff2].
        reflexivity.
  - (* MinMax *)
    run_result. split_range; run_result.
    + destruct (Z.geb_spec max_ min_); run_result.
      * split_range; run_result.
        -- rewrite Br. run_result. split.
           ++ reflexivity.
           ++ intros i.
              cbn [coeff segment row middleCols block coeff2].
              reflexivity.
        -- cbn [same_outcome c_name c_max c_index]. tauto.
      * rewrite Br. run_result. split.
        -- reflexivity.
        -- intros i. cbn [coeff segment row middleCols block coeff2].
           reflexivity.
    + cbn [same_outcome c_name c_max c_index]. tauto.
Qed.

(** X10. [Multi] on the rows of a matrix: the positions are checked in
    order against the row extent and the first invalid one is reported;
    when all are valid the result has one row per entry and all the
    columns, row [i] being row [ns[i] - 1] of the matrix -- order and
    repetitions kept. *)
Theorem matrix_multi_gathers_rows (x : Matrix T) (name : string)
        (ns : list Z) :
  match first_invalid (rows x) ns with
  | Some p =>
      result (resolve name [index_multi ns] (Mat x))
      = Throw (out_of_range
                 (Check "matrix[multi] row indexing" name (rows x) p))
  | None =>
      exists m : Matrix T,
        result (resolve name [index_multi ns] (Mat x)) = Ok (Mat m)
        /\ rows m = Z.of_nat (length ns)
        /\ cols m = cols x
        /\ (forall (i : nat) (j : Z),
               (i < length ns)%nat ->
               coeff2 m (Z.of_nat i) j = coeff2 x (nth i ns 0 - 1) j)
        /\ to_lists m = map (fun p => to_list (row x (p - 1))) ns
  end.
Proof.
  cbn [rvalue rvalue_matrix]. unfold rvalue_matrix_multi.
  run_result. destruct (first_invalid (rows x) ns); [reflexivity|].
  eexists. split; [reflexivity|].
  split; [cbn [rows indexed_rows]; unfold minus_one;
          rewrite length_map; reflexivity|].
  split; [reflexivity|]. split.
  - intros i j Hi. cbn [coeff2 indexed_rows].
    rewrite at_minus_one by exact Hi. reflexivity.
  - unfold to_lists. cbn [rows indexed_rows].
    replace (length (minus_one ns)) with (length ns)
      by (unfold minus_one; rewrite length_map; reflexivity).
    rewrite Nat2Z.id.
    rewrite <- (map_nth_seq (fun p => to_list (row x (p - 1))) 0 ns).
    apply map_ext_in. intros i Hi. apply in_seq in Hi.
    unfold to_list. cbn [size row cols indexed_rows coeff coeff2].
    rewrite at_minus_one by lia. reflexivity.
Qed.

(** X11. [(Multi, Multi)] on a matrix: all row positions are checked
    before any column position, so an invalid row is reported even when a
    column is invalid as well; when all are valid the coefficient [(i, j)]
    of the result is that of the matrix at row [rs[i] - 1], column
    [cs[j] - 1]. *)
Theorem matrix_multi_multi_gathers (x : Matrix T) (name : string)
        (rs cs : list Z) :
  match first_invalid (rows x) rs, first_invalid (cols x) cs with
  | Some p, _ =>
      exists function,
        result (resolve name [index_multi rs; index_multi cs] (Mat x))
        = Throw (out_of_range (Check function name (rows x) p))
  | None, Some q =>
      exists function,
        result (resolve name [index_multi rs; index_multi cs] (Mat x))
        = Throw (out_of_range (Check function name (cols x) q))
  | None, None =>
      exists m : Matrix T,
        result (resolve name [index_multi rs; index_multi cs] (Mat x))
        = Ok (Mat m)
        /\ rows m = Z.of_nat (length rs)
        /\ cols m = Z.of_nat (length cs)
        /\ forall i j : nat,
            (i < length rs)%nat -> (j < length cs)%nat ->
            coeff2 m (Z.of_nat i) (Z.of_nat j)
            = coeff2 x (nth i rs 0 - 1) (nth j cs 0 - 1)
  end.
Proof.
  cbn [rvalue rvalue_matrix2]. unfold rvalue_matrix_multi_multi.
  cbv zeta. run_result.
  destruct (first_invalid (rows x) rs); run_result;
    [destruct (first_invalid (cols x) cs); eexists; reflexivity|].
  destruct (first_invalid (cols x) cs); run_result; [eexists; reflexivity|].
  eexists. split; [reflexivity|].
  split; [cbn [rows indexed2 indexed_cols indexed_rows]; unfold minus_one;
          rewrite length_map; reflexivity|].
  split; [cbn [cols indexed2 indexed_cols indexed_rows]; unfold minus_one;
          rewrite length_map; reflexivity|].
  intros i j Hi Hj. cbn [coeff2 indexed2 indexed_cols indexed_rows].
  rewrite !at_minus_one by assumption. reflexivity.
Qed.

End MatrixFurther.

(** ** Arrays: guarded subscripts and one level at a time *)

Section ArrayFurther.
Context {T : Type}.
Variable rvalue_index_size : index -> Z -> Z.
Variable rvalue_at : Z -> index -> Z.

Local Abbreviation resolve := (@rvalue T rvalue_index_size rvalue_at).

Lemma loop_guarded (rvalue_rest : value T -> M (value T))
      (v : list (value T)) (name : string) (idx1 : index) (count : nat) :
  (forall elt, result (rvalue_rest elt) <> Unspecified) ->
  forall i : Z,
    result (rvalue_array_loop rvalue_at rvalue_rest v name idx1 count i)
    <> Unspecified.
Proof.
  intros Hrest. induction count as [|count IH]; intros i;
    cbn [rvalue_array_loop]; cbv zeta; [discriminate|].
  rewrite result_bind. unfold check_range. cbv zeta. cbn [result snd].
  destruct (in_rangeb _) eqn:E; [|discriminate].
  apply in_rangeb_iff in E. unfold in_range in E. cbn [c_index c_max] in E.
  destruct (subscript_valid v _ E) as [elt ->].
  rewrite result_bind. specialize (Hrest elt).
  destruct (result (rvalue_rest elt)); [|discriminate|congruence].
  rewrite result_bind. specialize (IH (i + 1)).
  destruct (result (rvalue_array_loop _ _ _ _ _ _ _));
    [discriminate|discriminate|congruence].
Qed.

(** X12. The array overloads never subscript a [std::vector] outside its
    storage: each [v[n - 1]] is reached only after [n] passed its check
    against [v.size()], so -- whatever positions the leading index
    yields -- the only way an array resolution can be unspecified is
    through the resolution of an element against the remaining indices. *)
Theorem array_subscript_is_guarded
        (rvalue_rest : value T -> M (value T)) (v : list (value T))
        (name : string) (idx1 : index) (n : Z) :
  (forall elt, result (rvalue_rest elt) <> Unspecified) ->
  result (rvalue_array_uni rvalue_rest v name n) <> Unspecified
  /\ result (rvalue_array rvalue_index_size rvalue_at rvalue_rest v name
                          idx1)
     <> Unspecified.
Proof.
  intros Hrest. split.
  - unfold rvalue_array_uni. rewrite result_bind.
    unfold check_range. cbv zeta. cbn [result snd].
    destruct (in_rangeb _) eqn:E; [|discriminate].
    apply in_rangeb_iff in E. unfold in_range in E. cbn [c_index c_max] in E.
    destruct (subscript_valid v _ E) as [elt ->]. apply Hrest.
  - unfold rvalue_array, check_greater_or_equal. cbv zeta.
    rewrite result_bind.
    destruct (0 <=? _); cbn [result ret throw snd]; [|discriminate].
    destruct (_ && _); [discriminate|].
    apply loop_guarded. exact Hrest.
Qed.

(** X13. A leading [Uni] on an array is resolved one level at a time:
    [rvalue(v, name, Uni(p), idxs...)] is [rvalue(v, name, Uni(p))]
    followed by [rvalue(., name, idxs...)] on the element it returns --
    same checks in the same order, same outcome; an invalid [p] raises
    before the remaining indices are looked at. *)
Theorem array_uni_one_level_at_a_time (v : list (value T)) (name : string)
        (p : Z) (rest : list index) :
  resolve name (index_uni p :: rest) (StdVec v)
  = bind (resolve name [index_uni p] (StdVec v)) (resolve name rest)
  /\ (~ 1 <= p <= Z.of_nat (length v) ->
      resolve name (index_uni p :: rest) (StdVec v)
      = ([Check "array[uni, ...] index" name (Z.of_nat (length v)) p],
         Throw (out_of_range
                  (Check "array[uni, ...] index" name
                         (Z.of_nat (length v)) p)))).
Proof.
  split.
  - cbn [rvalue]. unfold rvalue_array_uni. rewrite bind_assoc.
    unfold check_range. cbv zeta.
    destruct (in_rangeb _); [|reflexivity].
    rewrite !bind_Ok. destruct (subscript v (p - 1)) as [elt|].
    + rewrite bind_ret_l. reflexivity.
    + reflexivity.
  - intros Hp. cbn [rvalue]. unfold rvalue_array_uni. checked. reflexivity.
Qed.

End ArrayFurther.

(** ** Columns first, full ranges, row ranges *)

Section MoreSelections.
Context {T : Type}.
Variable rvalue_index_size : index -> Z -> Z.
Variable rvalue_at : Z -> index -> Z.

Local Abbreviation resolve := (@rvalue T rvalue_index_size rvalue_at).

(** X14. With a valid [Uni] column index, indexing a matrix by
    [(row_idx, Uni c)] and indexing its column [c - 1] by [row_idx] cannot
    be told apart but for the label of a range error, for every row
    index: the overloads written for the pairs [(Uni, Uni)] and
    [(Multi, Uni)] agree with the reduction "select the column, then apply
    the row index" that the overload generic in the row index performs. *)
Theorem matrix_rows_of_a_column (x : Matrix T) (name : string)
        (row_idx : index) (c : Z) :
  1 <= c <= cols x ->
  same_outcome (result (resolve name [row_idx; index_uni c] (Mat x)))
               (result (resolve name [row_idx] (Vec (col x (c - 1))))).
Proof.
  intros Hc.
  assert (Bc : (1 <=? c) && (c <=? cols x) = true)
    by (apply andb_true_iff; rewrite !Z.leb_le; exact Hc).
  destruct row_idx; cbn [rvalue rvalue_matrix2 rvalue_vector];
    unfold rvalue_matrix_uni_uni, rvalue_matrix_multi_uni,
      rvalue_matrix_idx_uni, rvalue_vector, rvalue_vector_uni,
      rvalue_vector_multi, rvalue_vector_min, rvalue_vector_max,
      rvalue_vector_min_max;
    cbv zeta.
  - (* Uni *)
    run_result. split_range; run_result.
    + rewrite Bc. run_result. reflexivity.
    + cbn [same_outcome c_name c_max c_index]. tauto.
  - (* Multi *)
    run_result. rewrite Bc. run_result.
    destruct (first_invalid (rows x) ns_); run_result.
    + cbn [same_outcome c_name c_max c_index]. tauto.
    + split; reflexivity.
  - (* Omni *)
    run_result. rewrite Bc. run_result. split; reflexivity.
  - (* Min *)
    run_result. rewrite Bc. run_result. split_range; run_result.
    + split; reflexivity.
    + cbn [same_outcome c_name c_max c_index]. tauto.
  - (* Max *)
    run_result. rewrite Bc. run_result.
    destruct (Z.gtb_spec max_ 0); run_result.
    + split_range; run_result.
      * split; reflexivity.
      * cbn [same_outcome c_name c_max c_index]. tauto.
    + split; reflexivity.
  - (* MinMax *)
    run_result. rewrite Bc. run_result. split_range; run_result.
    + destruct (Z.geb_spec max_ min_); run_result.
      * split_range; run_result.
        -- split; reflexivity.
        -- cbn [same_outcome c_name c_max c_index]. tauto.
      * split; reflexivity.
    + cbn [same_outcome c_name c_max c_index]. tauto.
Qed.

(** X15. On a vector of extent [n >= 1] the full ranges [Min(1)],
    [Max(n)] and [MinMax(1, n)] return a vector equivalent to the input,
    as [Omni] does. *)
Theorem vector_full_range (v : Vector T) (name : string) :
  1 <= size v ->
  exists r1 r2 r3 : Vector T,
    result (resolve name [index_min 1] (Vec v)) = Ok (Vec r1)
    /\ result (resolve name [index_max (size v)] (Vec v)) = Ok (Vec r2)
    /\ result (resolve name [index_min_max 1 (size v)] (Vec v))
       = Ok (Vec r3)
    /\ vec_equiv r1 v /\ vec_equiv r2 v /\ vec_equiv r3 v
    /\ result (resolve name [index_omni] (Vec v)) = Ok (Vec v).
Proof.
  intros Hn. cbn [rvalue rvalue_vector].
  unfold rvalue_vector_min, rvalue_vector_max, rvalue_vector_min_max.
  cbv zeta. run_result.
  assert (B : (1 <=? 1) && (1 <=? size v) = true)
    by (apply andb_true_iff; rewrite !Z.leb_le; lia).
  assert (B' : (1 <=? size v) && (size v <=? size v) = true)
    by (apply andb_true_iff; rewrite !Z.leb_le; lia).
  destruct (Z.gtb_spec (size v) 0); [|lia].
  destruct (Z.geb_spec (size v) 1); [|lia].
  run_result. rewrite B, B'. run_result.
  do 3 eexists. repeat (split; [reflexivity|]).
  repeat split; try reflexivity;
    try (cbn [size tail head segment]; lia);
    intros i; cbn [coeff tail head segment size]; f_equal; lia.
Qed.

Lemma to_lists_rows (x : Matrix T) (s n : Z) :
  0 <= s -> 0 <= n -> s + n <= rows x ->
  to_lists (block x s 0 n (cols x))
  = firstn (Z.to_nat n) (skipn (Z.to_nat s) (to_lists x)).
Proof.
  intros Hs Hn Hle. unfold to_lists. cbn [rows block].
  rewrite skipn_map, firstn_map.
  rewrite (slice_seq _ 0 (Z.to_nat s) (Z.to_nat n)) by lia.
  cbn [Nat.add].
  rewrite <- (map_seq_shift (fun i => to_list (row x (Z.of_nat i)))).
  apply map_ext. intros i. unfold to_list.
  cbn [size row cols block coeff coeff2].
  apply map_ext. intros j. f_equal. lia.
Qed.

(** X16. In terms of lists of rows, the row ranges of a matrix are
    slices: [Min(lo)] with [1 <= lo <= rows] drops the first [lo - 1]
    rows, [Max(hi)] with [1 <= hi <= rows] keeps the first [hi] rows, and
    [MinMax(lo, hi)] with [1 <= lo <= hi <= rows] keeps [hi - lo + 1]
    rows from row [lo - 1]; each row is returned whole. *)
Theorem matrix_row_ranges_are_slices (x : Matrix T) (name : string)
        (lo hi : Z) :
  (1 <= lo <= rows x ->
   exists m : Matrix T,
     result (resolve name [index_min lo] (Mat x)) = Ok (Mat m)
     /\ to_lists m = skipn (Z.to_nat (lo - 1)) (to_lists x))
  /\ (1 <= hi <= rows x ->
      exists m : Matrix T,
        result (resolve name [index_max hi] (Mat x)) = Ok (Mat m)
        /\ to_lists m = firstn (Z.to_nat hi) (to_lists x))
  /\ (1 <= lo <= rows x -> lo <= hi <= rows x ->
      exists m : Matrix T,
        result (resolve name [index_min_max lo hi] (Mat x)) = Ok (Mat m)
        /\ to_lists m
           = firstn (Z.to_nat (hi - lo + 1))
                    (skipn (Z.to_nat (lo - 1)) (to_lists x))).
Proof.
  cbn [rvalue rvalue_matrix].
  unfold as_value, rvalue_matrix_min, rvalue_matrix_max,
    rvalue_matrix_min_max.
  cbv zeta. split; [|split].
  - intros Hlo. checked. eexists. split; [reflexivity|].
    unfold bottomRows. rewrite to_lists_rows by lia.
    replace (rows x - (rows x - (lo - 1))) with (lo - 1) by lia.
    apply firstn_all2. rewrite length_skipn. unfold to_lists.
    rewrite length_map, length_seq. lia.
  - intros Hhi.
    assert (E : (hi >? 0) = true) by (apply Z.gtb_lt; lia).
    rewrite E. checked. eexists. split; [reflexivity|].
    unfold topRows. rewrite to_lists_rows by lia. reflexivity.
  - intros Hlo Hhi.
    assert (E : (hi >=? lo) = true) by (apply Z.geb_le; lia).
    rewrite E. checked. eexists. split; [reflexivity|].
    unfold middleRows. rewrite to_lists_rows by lia. reflexivity.
Qed.

End MoreSelections.

(** ** A row range with gathered columns *)

Section RangeMulti.
Context {T : Type}.
Variable rvalue_index_size : index -> Z -> Z.
Variable rvalue_at : Z -> index -> Z.

Local Abbreviation resolve := (@rvalue T rvalue_index_size rvalue_at).

(** X17. [(MinMax(lo, hi), Multi cs)] on a matrix: every column position is
    checked before the row range is looked at, so the first invalid column
    is reported whatever the range; with all columns valid and
    [1 <= lo <= hi <= rows] the result has [hi - lo + 1] rows and one
    column per entry of [cs], its coefficient [(i, j)] being that of the
    matrix at row [lo - 1 + i], column [cs[j] - 1]. *)
Theorem matrix_range_of_gathered_columns (x : Matrix T) (name : string)
        (lo hi : Z) (cs : list Z) :
  match first_invalid (cols x) cs with
  | Some q =>
      result (resolve name [index_min_max lo hi; index_multi cs] (Mat x))
      = Throw (out_of_range
                 (Check "matrix[..., multi] column indexing" name (cols x)
                        q))
  | None =>
      1 <= lo <= rows x -> lo <= hi <= rows x ->
      exists m : Matrix T,
        result (resolve name [index_min_max lo hi; index_multi cs] (Mat x))
        = Ok (Mat m)
        /\ rows m = hi - lo + 1
        /\ cols m = Z.of_nat (length cs)
        /\ forall (i : Z) (j : nat),
            (j < length cs)%nat ->
            coeff2 m i (Z.of_nat j)
            = coeff2 x (lo - 1 + i) (nth j cs 0 - 1)
  end.
Proof.
  cbn [rvalue rvalue_matrix2].
  unfold rvalue_matrix_idx_multi, rvalue_matrix, rvalue_matrix_min_max.
  cbv zeta. run_result.
  destruct (first_invalid (cols x) cs); run_result; [reflexivity|].
  intros Hlo Hhi.
  cbn [rows indexed_cols].
  assert (B1 : (1 <=? lo) && (lo <=? rows x) = true)
    by (apply andb_true_iff; rewrite !Z.leb_le; lia).
  assert (B2 : (1 <=? hi) && (hi <=? rows x) = true)
    by (apply andb_true_iff; rewrite !Z.leb_le; lia).
  rewrite B1. run_result.
  destruct (Z.geb_spec hi lo); [|lia]. run_result.
  cbn [rows indexed_cols]. rewrite B2. run_result.
  eexists. split; [reflexivity|].
  split; [reflexivity|].
  split; [cbn [cols middleRows block indexed_cols]; unfold minus_one;
          rewrite length_map; reflexivity|].
  intros i j Hj. cbn [coeff2 middleRows block indexed_cols].
  change (0 + Z.of_nat j) with (Z.of_nat j).
  rewrite at_minus_one by exact Hj. reflexivity.
Qed.

End RangeMulti.

(** ** The properties at concrete inputs *)

(** The concrete scenarios of the spec. *)
Example scenario_vector_min :
  option_map to_list
    (match result (rvalue_vector_min v5 "v" 3) with
     | Ok r => Some r | _ => None end)
  = Some [30; 40; 50].
Proof. reflexivity. Qed.

Example scenario_vector_max_0 :
  option_map to_list
    (match result (rvalue_vector_max v5 "v" 0) with
     | Ok r => Some r | _ => None end)
  = Some [].
Proof. reflexivity. Qed.

Example scenario_vector_multi :
  option_map to_list
    (match result (rvalue_vector_multi v5 "v" [2; 2; 1]) with
     | Ok r => Some r | _ => None end)
  = Some [20; 20; 10].
Proof. reflexivity. Qed.

Example scenario_matrix_uni_min_max :
  match result (resolveZ "m" [index_uni 2; index_min_max 1 2] (Mat m33)) with
  | Ok (Vec r) => Some (to_list r)
  | _ => None
  end = Some [4; 5].
Proof. reflexivity. Qed.

Example scenario_matrix_multi_multi :
  match result (resolveZ "m" [index_multi [3; 1]; index_multi [2; 2]]
                         (Mat m33)) with
  | Ok (Mat r) => Some (to_lists r)
  | _ => None
  end = Some [[8; 8]; [2; 2]].
Proof. reflexivity. Qed.

Example scenario_nested_uni_uni :
  result (resolveZ "a" [index_uni 2; index_uni 1] (StdVec nested))
  = Ok (Scalar 3).
Proof. reflexivity. Qed.

(** [Uni(2)] and [Uni(6)] on a vector of extent 5. *)
Lemma vector_uni_resolves_witness :
  resolveZ "v" [index_uni 2] (Vec v5)
  = ([Check "vector[uni] indexing" "v" 5 2], Ok (Scalar 20))
  /\ resolveZ "v" [index_uni 6] (Vec v5)
     = ([Check "vector[uni] indexing" "v" 5 6],
        Throw (out_of_range (Check "vector[uni] indexing" "v" 5 6))).
Proof.
  split.
  - apply (proj1 (vector_uni_resolves index_size_of positions v5 "v" 2)).
    simpl. lia.
  - apply (proj2 (vector_uni_resolves index_size_of positions v5 "v" 6)).
    simpl. lia.
Defined.

(** [Multi [2; 2; 1]] on [[10; 20; 30; 40; 50]]. *)
Lemma vector_multi_gathers_witness :
  exists r : Vector Z,
    resolveZ "v" [index_multi [2; 2; 1]] (Vec v5)
    = (map (Check "vector[multi] indexing" "v" 5) [2; 2; 1], Ok (Vec r))
    /\ size r = 3
    /\ (forall i : nat, (i < 3)%nat ->
                        coeff r (Z.of_nat i)
                        = coeff v5 (nth i [2; 2; 1] 0 - 1))
    /\ to_list r = [20; 20; 10].
Proof.
  apply (vector_multi_gathers index_size_of positions v5 "v" [2; 2; 1]).
  repeat constructor; simpl; lia.
Defined.

(** [MinMax(2, 4)], [MinMax(3, -7)] and [MinMax(6, 2)] on a vector of extent 5. *)
Lemma vector_min_max_policy_witness :
  resolveZ "v" [index_min_max 2 4] (Vec v5)
  = ([Check "vector[min_max] min indexing" "v" 5 2;
      Check "vector[min_max] max indexing" "v" 5 4],
     Ok (Vec (segment v5 1 3)))
  /\ resolveZ "v" [index_min_max 3 (-7)] (Vec v5)
     = ([Check "vector[min_max] min indexing" "v" 5 3],
        Ok (Vec (segment v5 2 0)))
  /\ resolveZ "v" [index_min_max 6 2] (Vec v5)
     = ([Check "vector[min_max] min indexing" "v" 5 6],
        Throw (out_of_range (Check "vector[min_max] min indexing" "v" 5 6))).
Proof.
  split; [|split].
  - apply (proj1 (proj2 (proj2 (vector_min_max_policy
                                  index_size_of positions v5 "v" 2 4))));
      simpl; lia.
  - apply (proj1 (proj2 (proj2 (proj2 (vector_min_max_policy
                                  index_size_of positions v5 "v" 3 (-7))))));
      simpl; lia.
  - apply (proj1 (proj2 (vector_min_max_policy
                           index_size_of positions v5 "v" 6 2)));
      simpl; lia.
Defined.

(** [Max(3)] on a vector of extent 5; [Max(0)] and [MinMax(1, 0)] on the empty vector. *)
Lemma vector_max_policy_witness :
  resolveZ "v" [index_max 3] (Vec v5)
  = ([Check "vector[max] indexing" "v" 5 3], Ok (Vec (head v5 3)))
  /\ resolveZ "v" [index_max 0] (Vec v0) = ([], Ok (Vec (head v0 0)))
  /\ resolveZ "v" [index_min_max 1 0] (Vec v0)
     = ([Check "vector[min_max] min indexing" "v" 0 1],
        Throw (out_of_range (Check "vector[min_max] min indexing" "v" 0 1))).
Proof.
  split; [|split].
  - apply (proj1 (vector_max_policy index_size_of positions v5 "v" 3));
      simpl; lia.
  - apply (proj1 (proj2 (proj2 (vector_max_policy
                                  index_size_of positions v0 "v" 0))));
      simpl; lia.
  - apply (proj2 (proj2 (proj2 (proj2 (vector_max_policy
                                  index_size_of positions v0 "v" 0)))) 1);
      simpl; lia.
Defined.

(** Blocks of a 3 by 3 matrix: an empty column range, two non-empty ranges, two empty ranges. *)
Lemma matrix_min_max_min_max_block_witness :
  resolveZ "m" [index_min_max 2 3; index_min_max 2 1] (Mat m33)
  = ([Check "matrix[min_max, min_max] min row indexing" "m" 3 2;
      Check "matrix[min_max, min_max] min column indexing" "m" 3 2;
      Check "matrix[min_max, min_max] max row indexing" "m" 3 3],
     Ok (Mat (block m33 1 1 2 0)))
  /\ resolveZ "m" [index_min_max 1 2; index_min_max 2 3] (Mat m33)
     = ([Check "matrix[min_max, min_max] min row indexing" "m" 3 1;
         Check "matrix[min_max, min_max] min column indexing" "m" 3 2;
         Check "matrix[min_max, min_max] max row indexing" "m" 3 2;
         Check "matrix[min_max, min_max] max column indexing" "m" 3 3],
        Ok (Mat (block m33 0 1 2 2)))
  /\ resolveZ "m" [index_min_max 3 (-4); index_min_max 2 0] (Mat m33)
     = ([Check "matrix[min_max, min_max] min row indexing" "m" 3 3;
         Check "matrix[min_max, min_max] min column indexing" "m" 3 2],
        Ok (Mat (block m33 2 1 0 0))).
Proof.
  split; [|split].
  - destruct (matrix_min_max_min_max_block index_size_of positions
                                           m33 "m" 2 3 2 1)
      as (_ & _ & H & _).
    specialize (H ltac:(simpl; lia) ltac:(simpl; lia)).
    destruct H as (_ & H & _). apply H; simpl; lia.
  - destruct (matrix_min_max_min_max_block index_size_of positions
                                           m33 "m" 1 2 2 3)
      as (_ & _ & H & _).
    specialize (H ltac:(simpl; lia) ltac:(simpl; lia)).
    destruct H as (H & _).
    specialize (H ltac:(lia) ltac:(lia)).
    destruct H as (H & _). apply H; simpl; lia.
  - destruct (matrix_min_max_min_max_block index_size_of positions
                                           m33 "m" 3 (-4) 2 0)
      as (_ & _ & H & _).
    specialize (H ltac:(simpl; lia) ltac:(simpl; lia)).
    destruct H as (_ & _ & _ & H). apply H; lia.
Defined.

(** [(Multi [2; 1], Uni(2))] and [(Min(2), Uni(3))] on [[[1; 2]; [3; 4; 5]]]. *)
Lemma array_idx_resolution_witness :
  (exists out : list (value Z),
      StdVec [Scalar 4; Scalar 2] = StdVec out
      /\ Z.of_nat (length out) = 2
      /\ forall i : nat,
          (i < length out)%nat ->
          1 <= positions (Z.of_nat i) (index_multi [2; 1]) <= 2
          /\ exists elt r : value Z,
              subscript nested
                        (positions (Z.of_nat i) (index_multi [2; 1]) - 1)
              = Some elt
              /\ result (resolveZ "a" [index_uni 2] elt) = Ok r
              /\ nth_error out i = Some r)
  /\ exists out : list (value Z),
      result (resolveZ "a" [index_min 2; index_uni 3] (StdVec nested))
      = Ok (StdVec out).
Proof.
  split.
  - apply (proj1 (array_idx_resolution nested "a" (index_multi [2; 1])
                                       [index_uni 2] eq_refl)).
    reflexivity.
  - apply (proj1 (proj2 (array_idx_resolution nested "a" (index_min 2)
                                              [index_uni 3] eq_refl))).
    intros i Hi. simpl in Hi. assert (i = 0) by lia. subst i.
    split; [simpl; lia|]. eexists. eexists. split; reflexivity.
Defined.

(** [Multi [2; 7; 0; 1]] on a vector of extent 5, and [(Multi [1; 9; 2], Uni(1))] on a sequence of length 2. *)
Lemma first_invalid_position_aborts_witness :
  (result (resolveZ "v" [index_multi [2; 7; 0; 1]] (Vec v5))
   = Throw (out_of_range (Check "vector[multi] indexing" "v" 5 7))
   /\ exists t,
       checks (resolveZ "v" [index_multi [2; 7; 0; 1]] (Vec v5))
       = t ++ [Check "vector[multi] indexing" "v" 5 7]
       /\ Forall in_range t)
  /\ resolveZ "v" [index_multi [2; 7; 0; 1]] (Vec v5)
     = ([Check "vector[multi] indexing" "v" 5 2;
         Check "vector[multi] indexing" "v" 5 7],
        Throw (out_of_range (Check "vector[multi] indexing" "v" 5 7)))
  /\ (result (resolveZ "a" [index_multi [1; 9; 2]; index_uni 1]
                       (StdVec nested))
      = Throw (out_of_range (Check "array[..., ...] index" "a" 2 9))
      /\ exists t,
          checks (resolveZ "a" [index_multi [1; 9; 2]; index_uni 1]
                           (StdVec nested))
          = t ++ [Check "array[..., ...] index" "a" 2 9]
          /\ Forall in_range t).
Proof.
  split; [|split].
  - apply (proj1 (@first_invalid_position_aborts Z index_size_of positions)
                 "v" [index_multi [2; 7; 0; 1]] (Vec v5)
                 (Check "vector[multi] indexing" "v" 5 7)).
    + simpl. right. left. reflexivity.
    + unfold in_range. simpl. lia.
  - apply (proj1 (proj2 (@first_invalid_position_aborts
                           Z index_size_of positions))
                 v5 "v" [2] 7 [0; 1]).
    + repeat constructor; simpl; lia.
    + simpl. lia.
  - apply (proj2 (proj2 (@first_invalid_position_aborts
                           Z index_size_of positions))
                 nested "a" (index_multi [1; 9; 2]) [index_uni 1] 1
                 eq_refl eq_refl).
    + simpl. lia.
    + intros i Hi. assert (i = 0) by lia. subst i.
      split; [unfold positions, at_; simpl; lia|].
      eexists. eexists. split; reflexivity.
    + unfold positions, at_. simpl. lia.
Defined.

(** Row position 4 of a 3 by 3 matrix under the three index pairs. *)
Lemma matrix_multi_row_label_witness :
  resolveZ "m" [index_multi [4]; index_uni 1] (Mat m33)
  = ([Check "matrix[multi, uni] column indexing" "m" 3 1;
      Check "matrix[uni, multi] row indexing" "m" 3 4],
     Throw (out_of_range (Check "matrix[uni, multi] row indexing" "m" 3 4)))
  /\ resolveZ "m" [index_multi [4]; index_multi [1]] (Mat m33)
     = ([Check "matrix[uni, multi] row indexing" "m" 3 4],
        Throw (out_of_range (Check "matrix[uni, multi] row indexing" "m" 3 4)))
  /\ resolveZ "m" [index_uni 4; index_multi [1]] (Mat m33)
     = ([Check "matrix[uni, multi] row indexing" "m" 3 4],
        Throw (out_of_range
                 (Check "matrix[uni, multi] row indexing" "m" 3 4))).
Proof.
  apply (matrix_multi_row_label index_size_of positions m33 "m" 4 1);
    simpl; lia.
Defined.

(** [(Uni(4), Max(0))] on a 3 by 3 matrix. *)
Lemma matrix_idx_max_nonpositive_witness :
  resolveZ "m" [index_uni 4; index_max 0] (Mat m33)
  = ([Check "matrix[uni] indexing" "m" 3 4],
     Throw (out_of_range (Check "matrix[uni] indexing" "m" 3 4))).
Proof.
  apply (proj2 (proj2 (proj2 (proj2 (matrix_idx_max_nonpositive
           index_size_of positions m33 "m" (index_uni 4) 0
           ltac:(lia))))) 4 eq_refl).
  simpl. lia.
Defined.

(** [Min(3)] and [Min(6)] on a vector of extent 5. *)
Lemma vector_min_tail_witness :
  (exists r : Vector Z,
      resolveZ "v" [index_min 3] (Vec v5)
      = ([Check "vector[min] indexing" "v" 5 3], Ok (Vec r))
      /\ size r = 3
      /\ 1 <= size r
      /\ (forall i : Z, coeff r i = coeff v5 (2 + i))
      /\ to_list r = [30; 40; 50])
  /\ resolveZ "v" [index_min 6] (Vec v5)
     = ([Check "vector[min] indexing" "v" 5 6],
        Throw (out_of_range (Check "vector[min] indexing" "v" 5 6))).
Proof.
  split.
  - apply (proj1 (vector_min_tail index_size_of positions v5 "v" 3)).
    simpl. lia.
  - apply (proj2 (vector_min_tail index_size_of positions v5 "v" 6)).
    simpl. lia.
Defined.

(** [MinMax(2, 4)] and [Max(2)] on [[10; 20; 30; 40; 50]]. *)
Lemma vector_ranges_are_slices_witness :
  (exists r : Vector Z,
      result (resolveZ "v" [index_min_max 2 4] (Vec v5)) = Ok (Vec r)
      /\ to_list r = [20; 30; 40])
  /\ exists r : Vector Z,
      result (resolveZ "v" [index_max 2] (Vec v5)) = Ok (Vec r)
      /\ to_list r = [10; 20].
Proof.
  split.
  - apply (proj1 (vector_ranges_are_slices index_size_of positions
                                           v5 "v" 2 4)); simpl; lia.
  - apply (proj1 (proj2 (vector_ranges_are_slices index_size_of positions
                                                  v5 "v" 1 2))); simpl; lia.
Defined.

(** [MinMax(2, 4)] against [Max(4)] then [Min(2)], and [Min(2)] then
    [Max(3)], on a vector of extent 5. *)
Lemma vector_min_max_composes_witness :
  exists r hd hd_tl tl tl_hd : Vector Z,
    result (resolveZ "v" [index_min_max 2 4] (Vec v5)) = Ok (Vec r)
    /\ result (resolveZ "v" [index_max 4] (Vec v5)) = Ok (Vec hd)
    /\ result (resolveZ "v" [index_min 2] (Vec hd)) = Ok (Vec hd_tl)
    /\ result (resolveZ "v" [index_min 2] (Vec v5)) = Ok (Vec tl)
    /\ result (resolveZ "v" [index_max 3] (Vec tl)) = Ok (Vec tl_hd)
    /\ vec_equiv r hd_tl /\ vec_equiv r tl_hd
    /\ to_list r = to_list hd_tl /\ to_list r = to_list tl_hd.
Proof.
  apply (vector_min_max_composes index_size_of positions v5 "v" 2 4);
    simpl; lia.
Defined.

(** [(Min(2), Max(0))] on a 3 by 3 matrix: two rows, no column. *)
Lemma selection_shape_two_indices_witness :
  exists m : Matrix Z,
    Mat (bottomRows (leftCols m33 0) 2) = Mat m
    /\ rows m = 2 /\ cols m = 0.
Proof.
  apply (selection_shape_two_indices index_size_of positions m33 "m"
           (index_min 2) (index_max 0) (Mat (bottomRows (leftCols m33 0) 2))).
  reflexivity.
Defined.

(** Row 7 and column 9 of a 3 by 3 matrix: [(Uni, Uni)] reports the row,
    [(Uni, Min)] the column. *)
Lemma matrix_validation_order_witness :
  (exists function,
      resolveZ "m" [index_uni 7; index_uni 9] (Mat m33)
      = ([Check function "m" 3 7],
         Throw (out_of_range (Check function "m" 3 7))))
  /\ exists function,
      resolveZ "m" [index_uni 7; index_min 9] (Mat m33)
      = ([Check function "m" 3 9],
         Throw (out_of_range (Check function "m" 3 9))).
Proof.
  destruct (matrix_validation_order index_size_of positions m33 "m"
              (index_uni 7) 7 9 ltac:(simpl; lia) ltac:(simpl; lia))
    as (A & _ & _ & _ & B & _).
  split; [exact A|exact B].
Defined.

(** [(Uni(2), MinMax(1, 2))] on a 3 by 3 matrix against [MinMax(1, 2)] on
    its second row. *)
Lemma matrix_uni_row_then_columns_witness :
  same_outcome
    (result (resolveZ "m" [index_uni 2; index_min_max 1 2] (Mat m33)))
    (result (resolveZ "m" [index_min_max 1 2] (Vec (row m33 1)))).
Proof.
  apply (matrix_uni_row_then_columns index_size_of positions m33 "m" 2
                                     (index_min_max 1 2)).
  simpl. lia.
Defined.

(** Subscripts 3 and [Multi [2; 5]] on a sequence of length 2, the
    elements returned as they are. *)
Lemma array_subscript_is_guarded_witness :
  result (rvalue_array_uni (fun elt => ret elt) nested "a" 3) <> Unspecified
  /\ result (rvalue_array index_size_of positions (fun elt => ret elt)
                          nested "a" (index_multi [2; 5]))
     <> Unspecified.
Proof.
  apply (array_subscript_is_guarded index_size_of positions
                                    (fun elt => ret elt) nested "a"
                                    (index_multi [2; 5]) 3).
  intros elt. simpl. discriminate.
Defined.

(** [(Multi [3; 1], Uni(2))] on a 3 by 3 matrix against [Multi [3; 1]] on
    its second column. *)
Lemma matrix_rows_of_a_column_witness :
  same_outcome
    (result (resolveZ "m" [index_multi [3; 1]; index_uni 2] (Mat m33)))
    (result (resolveZ "m" [index_multi [3; 1]] (Vec (col m33 1)))).
Proof.
  apply (matrix_rows_of_a_column index_size_of positions m33 "m"
                                 (index_multi [3; 1]) 2).
  simpl. lia.
Defined.

(** The full ranges of a vector of extent 5. *)
Lemma vector_full_range_witness :
  exists r1 r2 r3 : Vector Z,
    result (resolveZ "v" [index_min 1] (Vec v5)) = Ok (Vec r1)
    /\ result (resolveZ "v" [index_max 5] (Vec v5)) = Ok (Vec r2)
    /\ result (resolveZ "v" [index_min_max 1 5] (Vec v5)) = Ok (Vec r3)
    /\ vec_equiv r1 v5 /\ vec_equiv r2 v5 /\ vec_equiv r3 v5
    /\ result (resolveZ "v" [index_omni] (Vec v5)) = Ok (Vec v5).
Proof.
  apply (vector_full_range index_size_of positions v5 "v"). simpl. lia.
Defined.

(** Rows 2 to 3 of a 3 by 3 matrix. *)
Lemma matrix_row_ranges_are_slices_witness :
  exists m : Matrix Z,
    result (resolveZ "m" [index_min_max 2 3] (Mat m33)) = Ok (Mat m)
    /\ to_lists m = [[4; 5; 6]; [7; 8; 9]].
Proof.
  apply (proj2 (proj2 (matrix_row_ranges_are_slices index_size_of positions
                                                    m33 "m" 2 3)));
    simpl; lia.
Defined.

(** [(MinMax(2, 3), Multi [3; 1])] on a 3 by 3 matrix. *)
Lemma matrix_range_of_gathered_columns_witness :
  exists m : Matrix Z,
    result (resolveZ "m" [index_min_max 2 3; index_multi [3; 1]] (Mat m33))
    = Ok (Mat m)
    /\ rows m = 2
    /\ cols m = 2
    /\ forall (i : Z) (j : nat),
        (j < 2)%nat ->
        coeff2 m i (Z.of_nat j) = coeff2 m33 (1 + i) (nth j [3; 1] 0 - 1).
Proof.
  apply (matrix_range_of_gathered_columns index_size_of positions m33 "m"
                                          2 3 [3; 1]); simpl; lia.
Defined.
